(** * bean-go-broker: the job lifecycle engine, its supervisor and its dispatcher

    A shallow embedding of [broker/broker.go], [broker/dispatcher.go] and
    [bs/reserve.go].  Go values are modelled as follows:

    - [uint64] and [int64] are [Z] with the wrap-around written out;
      [time.Duration] is an [int64] count of nanoseconds;
    - [[]byte] and [string] are [string] (a sequence of 8-bit characters);
    - a Go pair [(v, err)] is a Rocq pair [(v, o)] with [o : option error],
      [None] standing for [nil];
    - calls that reach the queue server, the executor process or a channel are
      state passing over a [World]; a call that never returns is [Blocks], a
      run-time panic is [Panics]. *)

From Stdlib Require Import ZArith Lia Ascii String.
From stdpp Require Import base option list strings gmap.

Set Warnings "-register-all".
Local Open Scope Z_scope.

(** ** Go primitives *)

Module Go.

Definition wrap_uint64 (z : Z) : Z := z mod 2 ^ 64.

Definition wrap_int64 (z : Z) : Z := (z + 2 ^ 63) mod 2 ^ 64 - 2 ^ 63.

Definition uint64_mul (a b : Z) : Z := wrap_uint64 (a * b).

Definition int64_mul (a b : Z) : Z := wrap_int64 (a * b).

Definition int64_add (a b : Z) : Z := wrap_int64 (a + b).

(** [time.Duration]: signed 64-bit nanoseconds. *)
Definition Duration : Type := Z.

Definition Nanosecond : Duration := 1.
Definition Second : Duration := 1000000000.
Definition Minute : Duration := 60 * Second.
Definition Hour : Duration := 60 * Minute.

(** The conversion [time.Duration(x)] of a [uint64]. *)
Definition Duration_of_uint64 (x : Z) : Duration := wrap_int64 x.

(** [strings.ToLower], byte by byte.  On a string of ASCII bytes this is
    the library function.  On other input Go maps runes instead of bytes;
    the only runes whose lower case is an ASCII letter are U+212A (to k)
    and U+0130 (to i), so comparing the result with a word that has neither
    letter gives the same answer. *)
Definition ToLower_byte (c : ascii) : ascii :=
  let n := Ascii.N_of_ascii c in
  if ((65 <=? n) && (n <=? 90))%N then Ascii.ascii_of_N (n + 32) else c.

Fixpoint ToLower (s : string) : string :=
  match s with
  | EmptyString => EmptyString
  | String c s' => String (ToLower_byte c) (ToLower s')
  end.

(** Equality of two strings up to the case of ASCII letters. *)
Fixpoint EqualFoldASCII (s t : string) : bool :=
  match s, t with
  | EmptyString, EmptyString => true
  | String a s', String b t' =>
      bool_decide (ToLower_byte a = ToLower_byte b) && EqualFoldASCII s' t'
  | _, _ => false
  end.

(** A channel as far as its closing is concerned. *)
Inductive chan_state : Type := ChanOpen | ChanClosed.

(** [interface{}] values as the payload decoder produces them.  [VMap]
    lists the entries of a [map[interface{}]interface{}] in the order in
    which a [range] loop happens to visit them. *)
Inductive Value : Type :=
| VNil
| VBool (b : bool)
| VInt (n : Z)
| VFloat (bits : Z)
| VString (s : string)
| VSlice (vs : list Value)
| VMap (entries : list (Value * Value)).

(** Errors of the [kr/beanstalk] client. *)
Inductive beanstalk_Err : Type :=
| ErrTimeout
| ErrDeadline
| ErrNotFound
| ErrInternal
| ErrIO (msg : string).

Inductive error : Type :=
| errors_New (msg : string)
| ConnError (Op : string) (Err : beanstalk_Err)
| Errorf_err (format : string) (arg : error)
| Errorf_val (format : string) (arg : Value).

(** What a call does: return, block for ever, or panic. *)
Inductive Outcome (W A : Type) : Type :=
| Returns (a : A) (w : W)
| Blocks (w : W)
| Panics (msg : string) (w : W).
Arguments Returns {W A} a w.
Arguments Blocks {W A} w.
Arguments Panics {W A} msg w.

Definition M (W A : Type) : Type := W -> Outcome W A.

Definition pure {W A} (a : A) : M W A := fun w => Returns a w.

Definition bind {W A B} (m : M W A) (k : A -> M W B) : M W B :=
  fun w =>
    match m w with
    | Returns a w' => k a w'
    | Blocks w' => Blocks w'
    | Panics msg w' => Panics msg w'
    end.

Definition world_of {W A} (o : Outcome W A) : W :=
  match o with
  | Returns _ w => w
  | Blocks w => w
  | Panics _ w => w
  end.

End Go.

Import Go.

Declare Scope go_scope.
Notation "'do' x <- c ; k" := (bind c (fun x => k))
  (at level 10, x name, c at level 100, k at level 200) : go_scope.
Notation "'do' ' pat <- c ; k" := (bind c (fun x => match x with pat => k end))
  (at level 10, pat pattern, c at level 100, k at level 200) : go_scope.
Notation "c ;;; k" := (bind c (fun _ => k))
  (at level 100, k at level 200, right associativity) : go_scope.
Delimit Scope go_scope with go.

(** ** Package cli: the options the broker reads *)

Module cli.

Record Options : Type := {
  Address : string;
  All : bool;
  PerTube : Z;
  Tubes : list string;
  PHPBinary : string;
  PHPINI : string;
  InstanceRoot : string;
  ClusterRoot : string;
  Controller : string;
  RequeueDelay : Duration
}.

(** [strings.Join]. *)
Definition Join (elems : list string) (sep : string) : string :=
  match elems with
  | [] => ""
  | e :: rest => fold_left (fun acc x => acc +:+ sep +:+ x) rest e
  end.

(** [strings.Split(s, sep)] for a separator of one byte: the pieces of [s]
    between the separators, a single piece when there is none. *)
Fixpoint Split (s : string) (sep : ascii) : list string :=
  match s with
  | EmptyString => [EmptyString]
  | String c s' =>
      if bool_decide (c = sep) then EmptyString :: Split s' sep
      else
        match Split s' sep with
        | piece :: rest => String c piece :: rest
        | [] => [String c EmptyString]
        end
  end.

(** How many times a byte occurs in a string. *)
Fixpoint occurrences (sep : ascii) (s : string) : nat :=
  match s with
  | EmptyString => 0%nat
  | String c s' =>
      ((if bool_decide (c = sep) then 1 else 0) + occurrences sep s')%nat
  end.

Definition nonempty (s : string) : bool :=
  match s with
  | EmptyString => false
  | String _ _ => true
  end.

(** [msgs = append(msgs, msg)] under [if field == ""]. *)
Definition require (field msg : string) (msgs : list string) : list string :=
  if nonempty field then msgs else msgs ++ [msg].

Definition validateOptions (o : Options) : option error :=
  let msgs := [] in
  let msgs := require (Address o) "Address must not be empty (use -address flag)" msgs in
  let msgs :=
    require (PHPBinary o) "Path to PHP binary must not be empty (use -php flag)" msgs in
  let msgs :=
    require (PHPINI o) "Path to PHP ini file must not be empty (use -php-ini flag)"
      msgs in
  let msgs :=
    require (InstanceRoot o)
      "Instance root path must not be empty (use -instance-root flag)" msgs in
  let msgs :=
    require (ClusterRoot o) "Path to cluster must not be empty (use -cluster-root flag)"
      msgs in
  let msgs :=
    require (Controller o) "Controller must not be empty (use -controller flag)" msgs in
  match msgs with
  | [] => None
  | _ => Some (errors_New (Join msgs (String "010" EmptyString)))
  end.

(** [TubeList.Set]: the loop over the pieces writes each piece back to its
    place. *)
Definition TubeList_Set (t : list string) (value : string)
  : list string * option error :=
  let list := Split value "," in
  let list := (fun value => value) <$> list in
  (list, None).

End cli.

(** ** Package bs: jobs and the reserve adapter *)

Module bs.

Definition DeadlineSoonDelay : Duration := 1 * Second.

Record Job : Type := { Id : Z; Body : string }.

(** [beanstalk.Dial] and the methods of [bs.Job] that the broker calls.
    They talk to the queue server, whose state as this client sees it is
    [Q]; the counters are [uint64]. *)
Class Conn (Q : Type) : Type := {
  Dial : string -> Q -> option error * Q;
  Timeouts : Job -> Q -> (Z * option error) * Q;
  Releases : Job -> Q -> (Z * option error) * Q;
  TimeLeft : Job -> Q -> (Duration * option error) * Q;
  Release : Job -> Duration -> Q -> option error * Q;
  Delete : Job -> Q -> option error * Q
}.

(** One answer of [ts.Reserve(1 * time.Hour)]. *)
Inductive ReserveAnswer : Type :=
| Reserved (id : Z) (body : string)
| ReserveFailed (err : error).

(** What the adapter did while it looped. *)
Inductive ReserveStep : Type :=
| RetryNow
| SleepThenRetry (d : Duration)
| LogErrorThenRetry (err : error).

Record ReserveWorld : Type := {
  answers : list ReserveAnswer;
  steps : list ReserveStep
}.

(** [MustReserveWithoutTimeout]: the loop consumes the answers of the
    server one by one; when they run out the call is still waiting. *)
Fixpoint MustReserveWithoutTimeout_loop (ans : list ReserveAnswer)
    (st : list ReserveStep) : Outcome ReserveWorld (Z * string) :=
  match ans with
  | [] => Blocks {| answers := []; steps := st |}
  | Reserved id body :: rest =>
      Returns (id, body) {| answers := rest; steps := st |}
  | ReserveFailed (ConnError _ ErrTimeout) :: rest =>
      MustReserveWithoutTimeout_loop rest (st ++ [RetryNow])
  | ReserveFailed (ConnError _ ErrDeadline) :: rest =>
      MustReserveWithoutTimeout_loop rest (st ++ [SleepThenRetry DeadlineSoonDelay])
  | ReserveFailed (ConnError op e) :: rest =>
      MustReserveWithoutTimeout_loop rest (st ++ [LogErrorThenRetry (ConnError op e)])
  | ReserveFailed _ :: rest =>
      Panics "interface conversion: error is not beanstalk.ConnError"
        {| answers := rest; steps := st |}
  end.

Definition MustReserveWithoutTimeout : M ReserveWorld (Z * string) :=
  fun w => MustReserveWithoutTimeout_loop (answers w) (steps w).

(** What the adapter does after [Reserve] failed with [ConnError{Op, Err}]. *)
Definition retry (failure : string * beanstalk_Err) : ReserveStep :=
  match failure with
  | (_, ErrTimeout) => RetryNow
  | (_, ErrDeadline) => SleepThenRetry DeadlineSoonDelay
  | (op, e) => LogErrorThenRetry (ConnError op e)
  end.

Definition failed (failure : string * beanstalk_Err) : ReserveAnswer :=
  ReserveFailed (ConnError failure.1 failure.2).

End bs.

(** ** Package cmd: the executor process as the supervisor observes it *)

Module cmd.

Record WaitResult : Type := { Status : Z; Err : option error }.

(** One completed [select] of the [stdoutReader] loop, with the instant
    (nanoseconds since the timer was created) at which it completed. *)
Inductive DrainSelect : Type :=
| TimerFired (at_ : Z)
| OutData (at_ : Z) (data : string)
| OutClosed (at_ : Z).

(** One completed [select] of the [waitLoop]. *)
Inductive WaitSelect : Type :=
| WaitDone (at_ : Z) (wr : WaitResult)
| TimerFiredW (at_ : Z).

(** One executor process: what its constructor, its start and its
    termination answer, and the selects that the supervisor completes on
    its output channel, on its wait channel and on the timer. *)
Record Cmd : Type := {
  NewCommand_err : option error;
  StartWithStdin_err : option error;
  Terminate_err : option error;
  drain : list DrainSelect;
  wait : list WaitSelect
}.






(** The chunks received before the output is seen closed, in order. *)
Fixpoint output (sel : list DrainSelect) : string :=
  match sel with
  | [] => ""
  | OutData _ data :: rest => data +:+ output rest
  | TimerFired _ :: rest => output rest
  | OutClosed _ :: _ => ""
  end.

(** The first exit status that arrives. *)
Fixpoint exit_result (sel : list WaitSelect) : option WaitResult :=
  match sel with
  | [] => None
  | WaitDone _ wr :: _ => Some wr
  | TimerFiredW _ :: rest => exit_result rest
  end.

End cmd.

(** ** Package broker: the worker *)

Module broker.

Local Open Scope go_scope.

Definition ttrMargin : Duration := 1 * Second.

Definition TimeoutTries : Z := 1.

Definition ReleaseTries : Z := 10.

Record JobResult : Type := {
  Buried : bool;
  Executed : bool;
  ExitStatus : Z;
  JobId : Z;
  Stdout : string;
  TimedOut : bool;
  Error : option error
}.

Definition set_TimedOut (r : JobResult) (b : bool) : JobResult :=
  {| Buried := Buried r; Executed := Executed r; ExitStatus := ExitStatus r;
     JobId := JobId r; Stdout := Stdout r; TimedOut := b; Error := Error r |}.

Definition set_ExitStatus (r : JobResult) (st : Z) : JobResult :=
  {| Buried := Buried r; Executed := Executed r; ExitStatus := st;
     JobId := JobId r; Stdout := Stdout r; TimedOut := TimedOut r; Error := Error r |}.

Definition set_Stdout (r : JobResult) (out : string) : JobResult :=
  {| Buried := Buried r; Executed := Executed r; ExitStatus := ExitStatus r;
     JobId := JobId r; Stdout := out; TimedOut := TimedOut r; Error := Error r |}.

Record Broker : Type := {
  Address : string;
  Cmd : string;
  Tube : string;
  options : cli.Options;
  results : option nat
}.

(** [New]: the dispatcher passes [nil] for [results]. *)
Definition New (o : cli.Options) (tube : string) (slot : Z) (results : option nat)
  : Broker :=
  {| Address := cli.Address o; Cmd := ""; Tube := tube; options := o;
     results := results |}.

(** What the worker does to the outside, in order. *)
Inductive Event : Type :=
| EvDial (address : string)
| EvTimeouts (id : Z)
| EvReleases (id : Z)
| EvTimeLeft (id : Z)
| EvRelease (id : Z) (delay : Duration)
| EvDelete (id : Z)
| EvNewTimer (d : Duration)
| EvTimerStop
| EvNewCommand (cwd : string) (argv : list string)
| EvStartWithStdin (input : string)
| EvTerminate
| EvSend (ch : nat) (r : JobResult)
| EvFin.

Inductive Level : Type := Debug | Info | Warn | Error_.

Section Worker.

Context {Q : Type} `{!bs.Conn Q}.

(** [Decode] of [phpserialize]. *)
Variable Decode : string -> Value * option error.

Record World : Type := {
  conn : Q;
  ts : bs.ReserveWorld;
  procs : nat -> cmd.Cmd;
  spawned : nat;
  events : list Event;
  logs : list (Level * string)
}.

Definition emit (e : Event) (w : World) : World :=
  {| conn := conn w; ts := ts w; procs := procs w; spawned := spawned w;
     events := events w ++ [e]; logs := logs w |}.

Definition set_conn (q : Q) (w : World) : World :=
  {| conn := q; ts := ts w; procs := procs w; spawned := spawned w;
     events := events w; logs := logs w |}.

Definition note (l : Level) (format : string) (w : World) : World :=
  {| conn := conn w; ts := ts w; procs := procs w; spawned := spawned w;
     events := events w; logs := logs w ++ [(l, format)] |}.

Definition logf (l : Level) (format : string) : M World unit :=
  fun w => Returns tt (note l format w).

(** A call on the connection: recorded, then answered by the server. *)
Definition call {A} (e : Event) (f : Q -> A * Q) : M World A :=
  fun w => let '(a, q) := f (conn w) in Returns a (set_conn q (emit e w)).

Definition act (e : Event) : M World unit := fun w => Returns tt (emit e w).

Definition job_Timeouts (job : bs.Job) : M World (Z * option error) :=
  call (EvTimeouts (bs.Id job)) (bs.Timeouts job).

Definition job_Releases (job : bs.Job) : M World (Z * option error) :=
  call (EvReleases (bs.Id job)) (bs.Releases job).

Definition job_TimeLeft (job : bs.Job) : M World (Duration * option error) :=
  call (EvTimeLeft (bs.Id job)) (bs.TimeLeft job).

Definition job_Release (job : bs.Job) (delay : Duration) : M World (option error) :=
  call (EvRelease (bs.Id job) delay) (bs.Release job delay).

Definition job_Delete (job : bs.Job) : M World (option error) :=
  call (EvDelete (bs.Id job)) (bs.Delete job).

Definition MustReserveWithoutTimeout : M World (Z * string) :=
  fun w =>
    let put t :=
      {| conn := conn w; ts := t; procs := procs w; spawned := spawned w;
         events := events w; logs := logs w |} in
    match bs.MustReserveWithoutTimeout (ts w) with
    | Returns a t => Returns a (put t)
    | Blocks t => Blocks (put t)
    | Panics msg t => Panics msg (put t)
    end.

(** [cmd.NewCommand]: the next executor process. *)
Definition cmd_NewCommand (cwd : string) (argv : list string)
  : M World (cmd.Cmd * option error) :=
  fun w =>
    let c := procs w (spawned w) in
    Returns (c, cmd.NewCommand_err c)
      (emit (EvNewCommand cwd argv)
         {| conn := conn w; ts := ts w; procs := procs w;
            spawned := S (spawned w); events := events w; logs := logs w |}).

Definition cmd_StartWithStdin (c : cmd.Cmd) (input : string) : M World (option error) :=
  act (EvStartWithStdin input) ;;; pure (cmd.StartWithStdin_err c).

Definition cmd_Terminate (c : cmd.Cmd) : M World (option error) :=
  act EvTerminate ;;; pure (cmd.Terminate_err c).

(** *** Working directory *)

Fixpoint findDomain (dec : list (Value * Value)) : string * option error :=
  match dec with
  | [] => ("", Some (errors_New "failed to find domain key in job packet"))
  | (VString k, v) :: rest =>
      if bool_decide (k = "domain") then
        match v with
        | VString d => (d, None)
        | _ => ("", Some (errors_New "value of domain key is not a string"))
        end
      else findDomain rest
  | _ :: rest => findDomain rest
  end.

Definition getJobWD (o : cli.Options) (job : bs.Job) : string * option error :=
  let '(dec, err) := Decode (bs.Body job) in
  match err with
  | Some e => ("", Some (Errorf_err "failed to unserialize the job, error: %s" e))
  | None =>
      match dec with
      | VMap m =>
          let '(domain, err) := findDomain m in
          match err with
          | Some e => ("", Some e)
          | None =>
              if bool_decide (ToLower domain = "cluster")
              then (cli.ClusterRoot o +:+ "/worker", None)
              else (cli.InstanceRoot o +:+ "/" +:+ domain +:+ "/worker", None)
          end
      | _ =>
          ("", Some (Errorf_val
                       "failed to interpret the job packet, expecting a map got %v" dec))
      end
  end.

(** *** The execution supervisor *)

(** How the [stdoutReader] loop is left. *)
Inductive Drained : Type :=
| ReturnEarly (result : JobResult) (err : option error)
| BreakLoop (result : JobResult) (armed : bool).

(** [armed] says that the timer has not yet delivered its one value. *)
Fixpoint stdoutReader (c : cmd.Cmd) (sel : list cmd.DrainSelect) (armed : bool)
    (result : JobResult) : M World Drained :=
  match sel with
  | [] => Blocks
  | cmd.TimerFired _ :: rest =>
      if armed then
        do err <- cmd_Terminate c;
        match err with
        | Some e => pure (ReturnEarly result (Some e))
        | None => stdoutReader c rest false (set_TimedOut result true)
        end
      else Blocks
  | cmd.OutData _ data :: rest =>
      logf Info "stdout: %s" ;;;
      stdoutReader c rest armed (set_Stdout result (Stdout result +:+ data))
  | cmd.OutClosed _ :: _ => pure (BreakLoop result armed)
  end.

Fixpoint waitLoop (c : cmd.Cmd) (sel : list cmd.WaitSelect) (armed : bool)
    (result : JobResult) (err : option error) : M World (JobResult * option error) :=
  match sel with
  | [] => Blocks
  | cmd.WaitDone _ wr :: _ =>
      act EvTimerStop ;;;
      let err := match cmd.Err wr with None => cmd.Err wr | Some _ => err end in
      pure (set_ExitStatus result (cmd.Status wr), err)
  | cmd.TimerFiredW _ :: rest =>
      if armed then
        do _ <- cmd_Terminate c;
        waitLoop c rest false (set_TimedOut result true) err
      else Blocks
  end.

(** [&JobResult{JobId: job.Id, Executed: true}]. *)
Definition attempted (job : bs.Job) : JobResult :=
  {| Buried := false; Executed := true; ExitStatus := 0; JobId := bs.Id job;
     Stdout := ""; TimedOut := false; Error := None |}.

Definition argv (b : Broker) : list string :=
  [cli.PHPBinary (options b); "-c"; cli.PHPINI (options b); "index.php";
   cli.Controller (options b)].

Definition executeJob (b : Broker) (job : bs.Job) (cwd : string)
  : M World (JobResult * option error) :=
  let result := attempted job in
  do '(ttr, err) <- job_TimeLeft job;
  act (EvNewTimer (int64_add ttr ttrMargin)) ;;;
  match err with
  | Some e => pure (result, Some e)
  | None =>
      do '(c, err) <- cmd_NewCommand cwd (argv b);
      match err with
      | Some e => pure (result, Some e)
      | None =>
          do err <- cmd_StartWithStdin c (bs.Body job);
          match err with
          | Some e => pure (result, Some e)
          | None =>
              do d <- stdoutReader c (cmd.drain c) true result;
              match d with
              | ReturnEarly result err => pure (result, err)
              | BreakLoop result armed => waitLoop c (cmd.wait c) armed result None
              end
          end
      end
  end.

(** *** Resolving the job *)

(** [time.Duration(r*r*r*r) * time.Second] for a [uint64] [r]. *)
Definition backoff (r : Z) : Duration :=
  int64_mul
    (Duration_of_uint64 (uint64_mul (uint64_mul (uint64_mul r r) r) r)) Second.

(** In the [default] case [r, err := job.Releases()] declares a new [err]
    for that clause, so the error of [job.Release] stays in the clause and
    the function returns [nil]. *)
Definition handleResult (b : Broker) (job : bs.Job) (result : JobResult)
  : M World (option error) :=
  if TimedOut result then
    logf Warn "job %d timed out" ;;; pure None
  else
    logf Info "job %d finished with exit(%d)" ;;;
    if bool_decide (ExitStatus result = 0) then
      logf Info "deleting job %d" ;;;
      do err <- job_Delete job;
      pure err
    else
      do '(r, err) <- job_Releases job;
      let r := match err with Some _ => ReleaseTries | None => r end in
      let delay := backoff r in
      logf Info "releasing job %d with %v delay (%d retries)" ;;;
      do _ <- job_Release job delay;
      pure None.

(** *** The loop of [Run] *)

Inductive LoopCtl : Type := Continue | Return.

Definition send_result (b : Broker) (r : JobResult) : M World unit :=
  match results b with
  | Some ch => act (EvSend ch r)
  | None => pure tt
  end.

Definition buried (job : bs.Job) : JobResult :=
  {| Buried := true; Executed := false; ExitStatus := 0; JobId := bs.Id job;
     Stdout := ""; TimedOut := false; Error := None |}.

(** The second half of the loop body: the job passed both checks. *)
Definition Run_execute (b : Broker) (job : bs.Job) : M World LoopCtl :=
  let '(wd, err) := getJobWD (options b) job in
  match err with
  | Some e => logf Error_ "%v" ;;; pure Return
  | None =>
      logf Info "executing job %d in path %s" ;;;
      do '(result, err) <- executeJob b job wd;
      match err with
      | Some e => logf Error_ "%v" ;;; pure Return
      | None =>
          do err <- handleResult b job result;
          match err with
          | Some e => logf Error_ "%v" ;;; pure Return
          | None =>
              (match Error result with
               | Some _ => logf Warn "result had error: %s"
               | None => pure tt
               end) ;;;
              send_result b result ;;; pure Continue
          end
      end
  end.

(** One pass through the body of the [for] loop, after a tick arrived. *)
Definition Run_body (b : Broker) : M World LoopCtl :=
  logf Info "reserve (waiting for job)" ;;;
  do '(id, body) <- MustReserveWithoutTimeout;
  let job := {| bs.Id := id; bs.Body := body |} in
  do '(t, err) <- job_Timeouts job;
  match err with
  | Some e => logf Error_ "%v" ;;; pure Return
  | None =>
      if (TimeoutTries <=? t) then
        logf Warn "job %d has %d timeouts, burying" ;;;
        do err <- job_Release job (cli.RequeueDelay (options b));
        match err with
        | Some e =>
            logf Error_ "failed to re-queue a timed out job, error: %s" ;;;
            pure Continue
        | None => send_result b (buried job) ;;; pure Continue
        end
      else
        do '(releases, err) <- job_Releases job;
        match err with
        | Some e => logf Error_ "%v" ;;; pure Return
        | None =>
            if (ReleaseTries <=? releases) then
              logf Info "job %d has %d releases, re queueing" ;;;
              do err <- job_Release job (cli.RequeueDelay (options b));
              match err with
              | Some e =>
                  logf Error_ "failed to re-queue the job, error: %s" ;;;
                  pure Continue
              | None => send_result b (buried job) ;;; pure Continue
              end
            else Run_execute b job
        end
  end.

(** The [ticks] channel: so many values, then closed or silent. *)
Record Ticks : Type := { tokens : nat; closed : bool }.

Fixpoint Run_loop (b : Broker) (n : nat) (closed : bool) : M World unit :=
  match n with
  | O =>
      if closed then logf Info "preparing for shutdown" ;;; pure tt
      else Blocks
  | S n' =>
      do ctl <- Run_body b;
      match ctl with
      | Continue => Run_loop b n' closed
      | Return => pure tt
      end
  end.

(** [defer fin()]: runs when the function returns or panics. *)
Definition defer {A} (m : M World A) (d : World -> World) : M World A :=
  fun w =>
    match m w with
    | Returns a w' => Returns a (d w')
    | Blocks w' => Blocks w'
    | Panics msg w' => Panics msg (d w')
    end.

Definition Run (b : Broker) (ticks : Ticks) : M World unit :=
  defer
    (logf Debug "connecting to address: %s" ;;;
     do err <- call (EvDial (Address b)) (bs.Dial (Address b));
     match err with
     | Some e => logf Error_ "%v" ;;; pure tt
     | None =>
         logf Info "watching tube %s" ;;;
         Run_loop b (tokens ticks) (closed ticks)
     end)
    (emit EvFin).

End Worker.

(** What follows the decision to abandon a job: the release with the
    configured delay and, when that succeeds and there is a results channel,
    the result that is sent. *)
Definition abandoned (b : Broker) (job : bs.Job) (release_err : option error)
  : list Event :=
  EvRelease (bs.Id job) (cli.RequeueDelay (options b))
  :: match release_err, results b with
     | None, Some ch => [EvSend ch (buried job)]
     | _, _ => []
     end.

(** [if b.results != nil { b.results <- r }]. *)
Definition sends (b : Broker) (r : JobResult) : list Event :=
  match results b with
  | Some ch => [EvSend ch r]
  | None => []
  end.

(** The calls of a pass through the loop in the order of the source, when
    every one of them is made: for a job that is abandoned, *)
Definition abandon_pass (b : Broker) (job : bs.Job) : list Event :=
  [EvTimeouts (bs.Id job); EvReleases (bs.Id job);
   EvRelease (bs.Id job) (cli.RequeueDelay (options b))]
  ++ sends b (buried job).

(** for the supervisor, *)
Definition supervise_pass (b : Broker) (job : bs.Job) (D : Duration) (wd : string)
  : list Event :=
  [EvTimeLeft (bs.Id job); EvNewTimer D; EvNewCommand wd (argv b);
   EvStartWithStdin (bs.Body job); EvTerminate; EvTimerStop].

(** and for a job that is executed and then resolved by [resolve]. *)
Definition execute_pass (b : Broker) (job : bs.Job) (D : Duration) (wd : string)
    (resolve : list Event) (r : JobResult) : list Event :=
  [EvTimeouts (bs.Id job); EvReleases (bs.Id job)]
  ++ supervise_pass b job D wd ++ resolve ++ sends b r.

(** The two ways in which [handleResult] resolves a job. *)
Definition resolves (job : bs.Job) (resolve : list Event) : Prop :=
  resolve = [EvDelete (bs.Id job)]
  \/ exists d, resolve = [EvReleases (bs.Id job); EvRelease (bs.Id job) d].

(** The calls that change the job on the server. *)
Definition is_write (e : Event) : bool :=
  match e with
  | EvRelease _ _ | EvDelete _ => true
  | _ => false
  end.

Definition is_command (e : Event) : bool :=
  match e with
  | EvNewCommand _ _ => true
  | _ => false
  end.

Definition is_fin (e : Event) : bool :=
  match e with
  | EvFin => true
  | _ => false
  end.

Definition is_dial (e : Event) : bool :=
  match e with
  | EvDial _ => true
  | _ => false
  end.

Definition count (p : Event -> bool) (es : list Event) : nat :=
  length (List.filter p es).

End broker.

(** ** Package broker: the dispatcher *)

Module dispatcher.

Record BrokerDispatcher : Type := {
  address : string;
  perTube : Z;
  tubeSet : gmap string bool;
  options : cli.Options;
  wg : Z;
  ret : chan_state
}.

(** The locals of one call of [runBroker], shared with the two goroutines
    that the call starts: the worker receives from [ticker], the pump reads
    [end] and sends on [ticker]. *)
Record Frame : Type := {
  worker : broker.Broker;
  slot : Z;
  ticker : chan_state;
  end_ : bool
}.

(** The pump of a call, [for { if end { return }; ticker <- true }], runs
    beside the call and the worker, and where it is when the call closes
    [ticker] is up to the scheduler: [sending i] says that the pump of the
    call with frame [i] is then through its test of [end] and in its send,
    which is where it waits for as long as the worker is busy. *)
Record World : Type := {
  bd : BrokerDispatcher;
  frames : list Frame;
  ListTubes : list string * option error;
  sending : nat -> bool
}.

(** A call of the dispatcher either finishes, or waits in [<-bd.ret] with
    the rest of its work, or panics. *)
Inductive Task (A : Type) : Type :=
| Done (a : A) (w : World)
| AwaitRet (w : World) (k : World -> Task A)
| Panic (msg : string) (w : World).
Arguments Done {A} a w.
Arguments AwaitRet {A} w k.
Arguments Panic {A} msg w.

Definition D (A : Type) : Type := World -> Task A.

Fixpoint and_then {A B} (t : Task A) (f : A -> D B) : Task B :=
  match t with
  | Done a w => f a w
  | AwaitRet w k => AwaitRet w (fun w' => and_then (k w') f)
  | Panic msg w => Panic msg w
  end.

Definition bind {A B} (m : D A) (f : A -> D B) : D B := fun w => and_then (m w) f.

Definition pure {A} (a : A) : D A := fun w => Done a w.

Declare Scope task_scope.
Notation "'do' x <- c ; k" := (bind c (fun x => k))
  (at level 10, x name, c at level 100, k at level 200) : task_scope.
Notation "c ;;; k" := (bind c (fun _ => k))
  (at level 100, k at level 200, right associativity) : task_scope.
Local Open Scope task_scope.

Definition world_of {A} (t : Task A) : World :=
  match t with
  | Done _ w => w
  | AwaitRet w _ => w
  | Panic _ w => w
  end.

(** A waiting call goes on once [bd.ret] is closed. *)
Definition resume {A} (t : Task A) (w : World) : Task A :=
  match t with
  | AwaitRet _ k =>
      match ret (bd w) with
      | ChanClosed => k w
      | ChanOpen => AwaitRet w k
      end
  | _ => t
  end.

Definition with_bd (f : BrokerDispatcher -> BrokerDispatcher) (w : World) : World :=
  {| bd := f (bd w); frames := frames w; ListTubes := ListTubes w;
     sending := sending w |}.

Definition NewBrokerDispatcher (o : cli.Options) : BrokerDispatcher :=
  {| address := cli.Address o; perTube := cli.PerTube o; tubeSet := ∅;
     options := o; wg := 0; ret := ChanOpen |}.

Definition close_ret (d : BrokerDispatcher) : BrokerDispatcher :=
  {| address := address d; perTube := perTube d; tubeSet := tubeSet d;
     options := options d; wg := wg d; ret := ChanClosed |}.

(** [Shutdown]: [close(bd.ret)]; closing a closed channel panics. *)
Definition Shutdown : D unit :=
  fun w =>
    match ret (bd w) with
    | ChanOpen => Done tt (with_bd close_ret w)
    | ChanClosed => Panic "close of closed channel" w
    end.

Definition mark (tube : string) (d : BrokerDispatcher) : BrokerDispatcher :=
  {| address := address d; perTube := perTube d;
     tubeSet := <[tube := true]> (tubeSet d);
     options := options d; wg := wg d; ret := ret d |}.

Definition Add (delta : Z) (d : BrokerDispatcher) : BrokerDispatcher :=
  {| address := address d; perTube := perTube d; tubeSet := tubeSet d;
     options := options d; wg := wg d + delta; ret := ret d |}.

(** [bd.Done], the [fin] that [runBroker] hands to the worker's [Run]. *)
Definition bd_Done : D unit :=
  fun w =>
    if wg (bd w) <=? 0 then Panic "sync: negative WaitGroup counter" w
    else Done tt (with_bd (Add (-1)) w).

(** The frame of a call of [runBroker] that has started its goroutines. *)
Definition waiting (o : cli.Options) (tube : string) (slot : Z) : Frame :=
  {| worker := broker.New o tube slot None; slot := slot; ticker := ChanOpen;
     end_ := false |}.

(** [ticker := make(chan bool)], [bd.Add(1)], the two [go] statements and
    [end := false]: a new frame, whose index is returned. *)
Definition start (tube : string) (slot : Z) : D nat :=
  fun w =>
    Done (length (frames w))
      {| bd := Add 1 (bd w);
         frames := frames w ++ [waiting (options (bd w)) tube slot];
         ListTubes := ListTubes w; sending := sending w |}.

(** [<-bd.ret]: nothing is ever sent, so the receive returns only when
    the channel is closed. *)
Definition receive_ret : D unit :=
  fun w =>
    match ret (bd w) with
    | ChanClosed => Done tt w
    | ChanOpen => AwaitRet w (fun w' => Done tt w')
    end.

Definition stop_frame (f : Frame) : Frame :=
  {| worker := worker f; slot := slot f; ticker := ChanClosed; end_ := true |}.

(** The frame of a call of [runBroker] that is over. *)
Definition launched (o : cli.Options) (tube : string) (slot : Z) : Frame :=
  stop_frame (waiting o tube slot).

(** What the worker of a call gets from [ticker] in [b.Run(ticker, bd.Done)]:
    the [n] values that the pump has sent and then, if the channel is closed,
    its end. *)
Definition ticks (f : Frame) (n : nat) : broker.Ticks :=
  {| broker.tokens := n;
     broker.closed := match ticker f with ChanClosed => true | ChanOpen => false end |}.

(** [end = true; close(ticker)].  A pump that is in [ticker <- true] when
    the channel is closed panics, and the panic of a goroutine ends the
    process; a pump that has yet to test [end] finds it set and returns. *)
Definition finish (i : nat) : D unit :=
  fun w =>
    match ticker <$> frames w !! i with
    | Some ChanClosed => Panic "close of closed channel" w
    | _ =>
        let w' :=
          {| bd := bd w; frames := alter stop_frame i (frames w);
             ListTubes := ListTubes w; sending := sending w |} in
        if sending w i then Panic "send on closed channel" w' else Done tt w'
    end.

Definition runBroker (tube : string) (slot : Z) : D unit :=
  do i <- start tube slot;
  receive_ret ;;;
  finish i.

Fixpoint for_each {A} (l : list A) (body : A -> D unit) : D unit :=
  match l with
  | [] => pure tt
  | x :: rest => body x ;;; for_each rest body
  end.

(** The values of [i] in [for i := uint64(0); i < bd.perTube; i++]. *)
Definition slots (perTube : Z) : list Z := Z.of_nat <$> seq 0 (Z.to_nat perTube).

Definition RunTube (tube : string) : D unit :=
  (fun w => Done tt (with_bd (mark tube) w)) ;;;
  (fun w => for_each (slots (perTube (bd w))) (runBroker tube) w).

Definition RunTubes (tubes : list string) : D unit := for_each tubes RunTube.

Definition watched (d : BrokerDispatcher) (tube : string) : bool :=
  default false (tubeSet d !! tube).

Definition watchNewTubes : D (option error) :=
  fun w =>
    let '(tubes, err) := ListTubes w in
    match err with
    | Some e => Done (Some e) w
    | None =>
        (for_each tubes
           (fun tube w' => if watched (bd w') tube then Done tt w' else RunTube tube w') ;;;
         pure None) w
    end.

(** The goroutine that [RunAllTubes] starts, over the ticks of
    [instantTicker]: at each tick [watchNewTubes] lists the tubes, [listings]
    giving what [ListTubes] answers tick by tick, and an error of
    [watchNewTubes] is logged and the loop goes on. *)
Definition with_ListTubes (answer : list string * option error) (w : World) : World :=
  {| bd := bd w; frames := frames w; ListTubes := answer; sending := sending w |}.

Definition discover (listings : list (list string * option error)) : D unit :=
  for_each listings
    (fun answer w =>
       and_then (watchNewTubes (with_ListTubes answer w)) (fun _ w' => Done tt w')).

(** Let a call run to its end, [bd.ret] being closed by someone else
    whenever the call waits for it. *)
Fixpoint run_closing {A} (t : Task A) : Task A :=
  match t with
  | AwaitRet w k => run_closing (k (with_bd close_ret w))
  | _ => t
  end.

End dispatcher.

(** ** A queue server and an executor to run the definitions on *)

Module example.

(** A server that holds one job.  A broken connection fails every call;
    otherwise the counters are reported and a release counts. *)
Record Server : Type := {
  broken : bool;
  timeouts : Z;
  releases : Z;
  time_left : Duration;
  deleted : bool
}.

Definition eof : error := ConnError "stats-job" (ErrIO "EOF").

Definition stat (f : Server -> Z) (s : Server) : (Z * option error) * Server :=
  if broken s then ((0, Some eof), s) else ((f s, None), s).

Definition released (s : Server) : Server :=
  {| broken := broken s; timeouts := timeouts s; releases := releases s + 1;
     time_left := time_left s; deleted := deleted s |}.

Definition removed (s : Server) : Server :=
  {| broken := broken s; timeouts := timeouts s; releases := releases s;
     time_left := time_left s; deleted := true |}.

#[global] Instance server_conn : bs.Conn Server := {|
  bs.Dial := fun _ s => (if broken s then Some eof else None, s);
  bs.Timeouts := fun _ => stat timeouts;
  bs.Releases := fun _ => stat releases;
  bs.TimeLeft := fun _ => stat time_left;
  bs.Release := fun _ _ s => if broken s then (Some eof, s) else (None, released s);
  bs.Delete := fun _ s => if broken s then (Some eof, s) else (None, removed s)
|}.

Definition server (t r : Z) : Server :=
  {| broken := false; timeouts := t; releases := r; time_left := 5 * Second;
     deleted := false |}.

Definition offline : Server :=
  {| broken := true; timeouts := 0; releases := 0; time_left := 0; deleted := false |}.

Definition opts : cli.Options :=
  {| cli.Address := "127.0.0.1:11300"; cli.All := false; cli.PerTube := 1;
     cli.Tubes := ["default"]; cli.PHPBinary := "/usr/bin/php";
     cli.PHPINI := "/etc/php.ini"; cli.InstanceRoot := "/var/www/html";
     cli.ClusterRoot := "/opt/cluster"; cli.Controller := "/Core/Job/Console";
     cli.RequeueDelay := 1 * Minute |}.

(** An executor that prints one chunk and exits with [status] at [t]. *)
Definition quick (t status : Z) : cmd.Cmd :=
  {| cmd.NewCommand_err := None; cmd.StartWithStdin_err := None;
     cmd.Terminate_err := None;
     cmd.drain := [cmd.OutData (t - 2) "ok"; cmd.OutClosed (t - 1)];
     cmd.wait := [cmd.WaitDone t {| cmd.Status := status; cmd.Err := None |}] |}.

Definition world (s : Server) (ans : list bs.ReserveAnswer) (c : cmd.Cmd)
  : broker.World :=
  {| broker.conn := s; broker.ts := {| bs.answers := ans; bs.steps := [] |};
     broker.procs := fun _ => c; broker.spawned := 0%nat; broker.events := [];
     broker.logs := [] |}.

(** A payload decoder that knows three bodies. *)
Definition decode (body : string) : Value * option error :=
  if bool_decide (body = "payload") then
    (VMap [(VInt 1, VString "x"); (VString "domain", VString "acme")], None)
  else if bool_decide (body = "cluster job") then
    (VMap [(VString "domain", VString "Cluster")], None)
  else if bool_decide (body = "list") then
    (VSlice [VString "domain"], None)
  else (VNil, Some (errors_New "php_serialize: Invalid format")).


(** An executor that keeps printing until it is terminated. *)
Definition chatty (terminate_err : option error) : cmd.Cmd :=
  {| cmd.NewCommand_err := None; cmd.StartWithStdin_err := None;
     cmd.Terminate_err := terminate_err;
     cmd.drain := [cmd.OutData (1 * Second) "a"; cmd.TimerFired (6 * Second);
                   cmd.OutData (6 * Second + 1) "b"; cmd.OutClosed (6 * Second + 2)];
     cmd.wait := [cmd.WaitDone (6 * Second + 3)
                    {| cmd.Status := -1; cmd.Err := None |}] |}.

(** An executor that cannot be created. *)
Definition missing : cmd.Cmd :=
  {| cmd.NewCommand_err := Some (errors_New "chdir: no such file or directory");
     cmd.StartWithStdin_err := None; cmd.Terminate_err := None;
     cmd.drain := []; cmd.wait := [] |}.

Definition job7 : bs.Job := {| bs.Id := 7; bs.Body := "payload" |}.

Definition worker (results : option nat) : broker.Broker :=
  broker.New opts "default" 0 results.

(** A dispatcher that has just been created; no pump is caught in its
    send. *)
Definition fresh (perTube : Z) : dispatcher.World :=
  {| dispatcher.bd :=
       dispatcher.NewBrokerDispatcher
         {| cli.Address := "127.0.0.1:11300"; cli.All := false;
            cli.PerTube := perTube; cli.Tubes := ["default"];
            cli.PHPBinary := "/usr/bin/php"; cli.PHPINI := "/etc/php.ini";
            cli.InstanceRoot := "/var/www/html"; cli.ClusterRoot := "/opt/cluster";
            cli.Controller := "/Core/Job/Console"; cli.RequeueDelay := 1 * Minute |};
     dispatcher.frames := [];
     dispatcher.ListTubes := (["default"], None);
     dispatcher.sending := fun _ => false |}.

(** The same with workers that are busy, so that every pump is in its
    send. *)
Definition busy (perTube : Z) : dispatcher.World :=
  {| dispatcher.bd := dispatcher.bd (fresh perTube);
     dispatcher.frames := [];
     dispatcher.ListTubes := (["default"], None);
     dispatcher.sending := fun _ => true |}.

(** The result of an execution that ended with [status]. *)
Definition exited (status : Z) (timed_out : bool) : broker.JobResult :=
  {| broker.Buried := false; broker.Executed := true; broker.ExitStatus := status;
     broker.JobId := 7; broker.Stdout := "ok"; broker.TimedOut := timed_out;
     broker.Error := None |}.

End example.

(** * Properties *)

Import broker.

(** ** Arithmetic of the back-off delay *)

Lemma wrap_uint64_small z : 0 <= z < 2 ^ 64 -> wrap_uint64 z = z.
Proof. intros Hz. unfold wrap_uint64. now apply Z.mod_small. Qed.

Lemma wrap_int64_small z : - 2 ^ 63 <= z < 2 ^ 63 -> wrap_int64 z = z.
Proof.
  intros Hz. unfold wrap_int64.
  rewrite Z.mod_small by lia. lia.
Qed.

Lemma fourth_power_bounds r : 0 <= r <= 309 -> 0 <= r * r * r * r <= 9116621361.
Proof.
  intros Hr.
  assert (H2 : 0 <= r * r <= 95481) by nia.
  assert (H3 : 0 <= r * r * r <= 29503629) by nia.
  nia.
Qed.

(** As long as [r]⁴ seconds fit in an [int64], the delay is [r]⁴ seconds. *)
Lemma backoff_exact r : 0 <= r <= 309 -> backoff r = r ^ 4 * Second.
Proof.
  intros Hr.
  pose proof (fourth_power_bounds r Hr) as H4.
  assert (H2 : 0 <= r * r <= 95481) by nia.
  assert (H3 : 0 <= r * r * r <= 29503629) by nia.
  unfold backoff, uint64_mul, Duration_of_uint64, int64_mul.
  rewrite (wrap_uint64_small (r * r)) by lia.
  rewrite (wrap_uint64_small (r * r * r)) by lia.
  rewrite (wrap_uint64_small (r * r * r * r)) by lia.
  rewrite (wrap_int64_small (r * r * r * r)) by lia.
  unfold Second. rewrite wrap_int64_small by lia.
  replace (r ^ 4) with (r * r * r * r) by ring. reflexivity.
Qed.

Lemma fourth_power_lt a b : 0 <= a < b -> a ^ 4 < b ^ 4.
Proof. intros H. apply Z.pow_lt_mono_l; lia. Qed.

Lemma backoff_strictly_increasing r1 r2 :
  0 <= r1 -> r1 < r2 -> r2 <= 309 -> backoff r1 < backoff r2.
Proof.
  intros H0 H12 H2.
  rewrite !backoff_exact by lia.
  pose proof (fourth_power_lt r1 r2 ltac:(lia)). unfold Second. lia.
Qed.

(** Beyond that range the product wraps: 65536⁴ is 2⁶⁴. *)
Example backoff_wraps : backoff 65536 = 0.
Proof. reflexivity. Qed.

Example backoff_last_retry : backoff ReleaseTries = 10000 * Second.
Proof. reflexivity. Qed.

(** ** Resolving a job after its execution *)

Section Resolving.

Context {Q : Type} `{!bs.Conn Q}.

Implicit Types (w : @World Q) (job : bs.Job) (result : JobResult) (b : Broker).

Lemma handleResult_timed_out b job result w :
  TimedOut result = true ->
  handleResult b job result w
  = Returns None
      {| conn := conn w; ts := ts w; procs := procs w; spawned := spawned w;
         events := events w; logs := logs w ++ [(Warn, "job %d timed out")] |}.
Proof. intros Ht. unfold handleResult. rewrite Ht. reflexivity. Qed.

Lemma handleResult_exit_0 b job result w :
  TimedOut result = false -> ExitStatus result = 0 ->
  exists w',
    handleResult b job result w = Returns (bs.Delete job (conn w)).1 w'
    /\ conn w' = (bs.Delete job (conn w)).2
    /\ events w' = events w ++ [EvDelete (bs.Id job)].
Proof.
  intros Ht Hs. unfold handleResult. rewrite Ht.
  rewrite bool_decide_eq_true_2 by assumption.
  unfold bind, job_Delete, call, logf. cbn.
  destruct (bs.Delete job (conn w)) as [err q]. cbn. eauto.
Qed.

Lemma handleResult_exit_nonzero b job result w r e q :
  TimedOut result = false -> ExitStatus result <> 0 ->
  bs.Releases job (conn w) = ((r, e), q) ->
  exists w',
    handleResult b job result w = Returns None w'
    /\ conn w'
       = (bs.Release job (backoff (if e is Some _ then ReleaseTries else r)) q).2
    /\ events w'
       = events w ++ [EvReleases (bs.Id job);
                      EvRelease (bs.Id job)
                        (backoff (if e is Some _ then ReleaseTries else r))].
Proof.
  intros Ht Hs Hr. unfold handleResult. rewrite Ht.
  rewrite bool_decide_eq_false_2 by assumption.
  unfold bind, job_Releases, job_Release, call, logf. cbn. rewrite Hr. cbn.
  destruct (bs.Release job _ q) as [err q'] eqn:Hrel. cbn.
  eexists. split; [reflexivity|]. cbn. split; [reflexivity|].
  rewrite <- app_assoc. reflexivity.
Qed.

(** C2.  An executed job that did not time out is deleted when its exit
    status is 0.  With another exit status it is released: the release count
    [r] is read first and the delay is [r]⁴ seconds; when that read fails the
    delay is that of [r] = 10.  The delay grows strictly with [r].  ([r]⁴
    seconds fit the 64-bit nanosecond count up to [r] = 309; a job gets here
    only with fewer than 10 releases.) *)
Theorem handleResult_disposition b job result w :
  TimedOut result = false ->
  (ExitStatus result = 0 ->
   exists w',
     handleResult b job result w = Returns (bs.Delete job (conn w)).1 w'
     /\ conn w' = (bs.Delete job (conn w)).2
     /\ events w' = events w ++ [EvDelete (bs.Id job)])
  /\ (ExitStatus result <> 0 ->
      forall r e q, bs.Releases job (conn w) = ((r, e), q) ->
        (e = None -> 0 <= r <= 309 ->
         exists w',
           handleResult b job result w = Returns None w'
           /\ conn w' = (bs.Release job (r ^ 4 * Second) q).2
           /\ events w'
              = events w ++ [EvReleases (bs.Id job);
                             EvRelease (bs.Id job) (r ^ 4 * Second)])
        /\ (e <> None ->
            exists w',
              handleResult b job result w = Returns None w'
              /\ conn w' = (bs.Release job (ReleaseTries ^ 4 * Second) q).2
              /\ events w'
                 = events w ++ [EvReleases (bs.Id job);
                                EvRelease (bs.Id job) (ReleaseTries ^ 4 * Second)]))
  /\ (forall r1 r2, 0 <= r1 -> r1 < r2 -> r2 <= 309 -> backoff r1 < backoff r2).
Proof.
  intros Ht. split; [|split].
  - intros Hs. now apply handleResult_exit_0.
  - intros Hs r e q Hr.
    destruct (handleResult_exit_nonzero b job result w r e q Ht Hs Hr)
      as (w' & Hret & Hconn & Hev).
    split.
    + intros -> Hrange. rewrite (backoff_exact r Hrange) in Hconn, Hev. eauto.
    + intros He. destruct e as [e|]; [|congruence].
      rewrite (backoff_exact ReleaseTries) in Hconn, Hev by (unfold ReleaseTries; lia).
      eauto.
  - apply backoff_strictly_increasing.
Qed.

(** C3.  When the result says that the execution timed out, [handleResult]
    calls neither [Delete] nor [Release] nor anything else on the connection:
    the server state and the record of calls are as before. *)
Theorem handleResult_timed_out_leaves_queue b job result w :
  TimedOut result = true ->
  exists w',
    handleResult b job result w = Returns None w'
    /\ conn w' = conn w
    /\ events w' = events w
    /\ ts w' = ts w.
Proof.
  intros Ht. rewrite (handleResult_timed_out b job result w Ht).
  eexists. split; [reflexivity|]. cbn. auto.
Qed.

End Resolving.

Lemma handleResult_disposition_witness :
  exists w',
    handleResult (example.worker None) example.job7 (example.exited 1 false)
      (example.world (example.server 0 3) [] (example.quick 3 1))
    = Returns None w'
    /\ events w' = [EvReleases 7; EvRelease 7 (81 * Second)].
Proof.
  destruct (handleResult_disposition (example.worker None) example.job7
              (example.exited 1 false)
              (example.world (example.server 0 3) [] (example.quick 3 1))
              eq_refl) as (_ & H & _).
  destruct (H ltac:(discriminate) 3 None (example.server 0 3) eq_refl) as (H3 & _).
  destruct (H3 eq_refl ltac:(lia)) as (w' & Hret & _ & Hev).
  exists w'. split; [exact Hret | exact Hev].
Defined.

Lemma handleResult_timed_out_leaves_queue_witness :
  exists w',
    handleResult (example.worker None) example.job7 (example.exited 0 true)
      (example.world (example.server 0 3) [] (example.quick 3 1))
    = Returns None w'
    /\ conn w' = example.server 0 3
    /\ events w' = [].
Proof.
  destruct (handleResult_timed_out_leaves_queue (example.worker None) example.job7
              (example.exited 0 true)
              (example.world (example.server 0 3) [] (example.quick 3 1))
              eq_refl) as (w' & Hret & Hconn & Hev & _).
  exists w'. split; [exact Hret | split; [exact Hconn | exact Hev]].
Defined.

(** ** The checks before execution *)

Section Abandon.

Context {Q : Type} `{!bs.Conn Q}.
Variable Decode : string -> Value * option error.

Implicit Types (w : @World Q) (job : bs.Job) (b : Broker).

Lemma reserve_returns w id body t1 :
  bs.MustReserveWithoutTimeout (ts w) = Returns (id, body) t1 ->
  MustReserveWithoutTimeout w
  = Returns (id, body)
      {| conn := conn w; ts := t1; procs := procs w; spawned := spawned w;
         events := events w; logs := logs w |}.
Proof. intros Hr. unfold MustReserveWithoutTimeout. rewrite Hr. reflexivity. Qed.

Lemma abandon_release b job msg w :
  exists w',
    (do err <- job_Release job (cli.RequeueDelay (options b));
     match err with
     | Some e => logf Error_ msg ;;; pure Continue
     | None => send_result b (buried job) ;;; pure Continue
     end)%go w = Returns Continue w'
    /\ events w'
       = events w
         ++ abandoned b job (bs.Release job (cli.RequeueDelay (options b)) (conn w)).1
    /\ conn w' = (bs.Release job (cli.RequeueDelay (options b)) (conn w)).2
    /\ spawned w' = spawned w.
Proof.
  unfold bind, job_Release, call, abandoned, send_result, logf, act, pure.
  destruct (bs.Release job _ (conn w)) as [[e|] q]; cbn.
  - eauto.
  - destruct (results b) as [ch|]; cbn.
    + eexists. split; [reflexivity|]. cbn. rewrite <- app_assoc. auto.
    + eauto.
Qed.

Lemma abandoned_sends b job e ch r :
  EvSend ch r ∈ abandoned b job e ->
  e = None /\ results b = Some ch /\ r = buried job.
Proof.
  unfold abandoned. intros Hin.
  apply elem_of_cons in Hin as [Heq | Hin]; [discriminate|].
  destruct e as [e|]; [now apply elem_of_nil in Hin|].
  destruct (results b) as [ch'|]; [|now apply elem_of_nil in Hin].
  apply list_elem_of_singleton in Hin. injection Hin as -> ->. auto.
Qed.

(** C1.  A reserved job with at least [TimeoutTries] = 1 timeouts, or with
    no timeout and at least [ReleaseTries] = 10 releases, is abandoned: apart
    from reading the counters the pass calls [Release] with the configured
    requeue delay and nothing else, no executor is created, the loop
    continues, and a result that is sent has [Buried] set and [Executed]
    unset.  The result is sent when the release succeeded and the broker
    has a results channel. *)
Theorem Run_body_abandons b w id body t1 t q1 :
  bs.MustReserveWithoutTimeout (ts w) = Returns (id, body) t1 ->
  bs.Timeouts {| bs.Id := id; bs.Body := body |} (conn w) = ((t, None), q1) ->
  let job := {| bs.Id := id; bs.Body := body |} in
  let delay := cli.RequeueDelay (options b) in
  (TimeoutTries <= t ->
   exists w',
     Run_body Decode b w = Returns Continue w'
     /\ events w' = events w ++ EvTimeouts id :: abandoned b job (bs.Release job delay q1).1
     /\ spawned w' = spawned w)
  /\ (t = 0 ->
      forall r q2, bs.Releases job q1 = ((r, None), q2) -> ReleaseTries <= r ->
      exists w',
        Run_body Decode b w = Returns Continue w'
        /\ events w'
           = events w
             ++ EvTimeouts id :: EvReleases id
                :: abandoned b job (bs.Release job delay q2).1
        /\ spawned w' = spawned w)
  /\ (forall e ch r,
        EvSend ch r ∈ abandoned b job e ->
        Buried r = true /\ Executed r = false /\ JobId r = id)
  /\ (forall ch,
        results b = Some ch -> EvSend ch (buried job) ∈ abandoned b job None).
Proof.
  intros Hres Ht job delay. split; [|split; [|split]].
  - intros Hge.
    destruct (abandon_release b job
                "failed to re-queue a timed out job, error: %s"
                {| conn := q1; ts := t1; procs := procs w; spawned := spawned w;
                   events := events w ++ [EvTimeouts id];
                   logs := (logs w ++ [(Info, "reserve (waiting for job)")])
                           ++ [(Warn, "job %d has %d timeouts, burying")] |})
      as (w' & Hrun & Hev & _ & Hsp).
    exists w'. split; [|split; [|exact Hsp]].
    + unfold Run_body, bind at 1 2 3, logf at 1. cbn.
      rewrite (reserve_returns _ id body t1) by exact Hres. cbn.
      unfold job_Timeouts, call. cbn. rewrite Ht. cbn.
      apply Z.leb_le in Hge. rewrite Hge.
      unfold bind at 1, logf at 1. cbn. exact Hrun.
    + rewrite Hev. cbn. rewrite <- app_assoc. reflexivity.
  - intros -> r q2 Hr Hge.
    destruct (abandon_release b job
                "failed to re-queue the job, error: %s"
                {| conn := q2; ts := t1; procs := procs w; spawned := spawned w;
                   events := (events w ++ [EvTimeouts id]) ++ [EvReleases id];
                   logs := (logs w ++ [(Info, "reserve (waiting for job)")])
                           ++ [(Info, "job %d has %d releases, re queueing")] |})
      as (w' & Hrun & Hev & _ & Hsp).
    exists w'. split; [|split; [|exact Hsp]].
    + unfold Run_body, bind at 1 2 3, logf at 1. cbn.
      rewrite (reserve_returns _ id body t1) by exact Hres. cbn.
      unfold job_Timeouts, call. cbn. rewrite Ht. cbn.
      unfold bind at 1, job_Releases, call. cbn. unfold job in Hr. rewrite Hr. cbn.
      apply Z.leb_le in Hge. rewrite Hge.
      unfold bind at 1, logf at 1. cbn. exact Hrun.
    + rewrite Hev. cbn. rewrite <- !app_assoc. reflexivity.
  - intros e ch r Hin. apply abandoned_sends in Hin as (_ & _ & ->). auto.
  - intros ch Hch. unfold abandoned. rewrite Hch. set_solver.
Qed.

End Abandon.

Lemma Run_body_abandons_witness :
  exists w',
    Run_body example.decode (example.worker (Some 0%nat))
      (example.world (example.server 1 0) [bs.Reserved 7 "payload"] (example.quick 3 0))
    = Returns Continue w'
    /\ events w'
       = [EvTimeouts 7; EvRelease 7 (1 * Minute); EvSend 0 (buried example.job7)].
Proof.
  destruct (@Run_body_abandons _ example.server_conn example.decode
              (example.worker (Some 0%nat))
              (example.world (example.server 1 0) [bs.Reserved 7 "payload"]
                 (example.quick 3 0))
              7 "payload" {| bs.answers := []; bs.steps := [] |} 1
              (example.server 1 0) eq_refl eq_refl) as (H & _).
  destruct (H ltac:(unfold TimeoutTries; lia)) as (w' & Hrun & Hev & _).
  exists w'. split; [exact Hrun | exact Hev].
Defined.

(** ** The working directory of a job *)

Lemma EqualFoldASCII_ToLower s t :
  EqualFoldASCII s t = true <-> ToLower s = ToLower t.
Proof.
  revert t. induction s as [|a s IH]; intros [|c t]; cbn; try easy.
  rewrite andb_true_iff, bool_decide_eq_true, IH.
  split; [intros [-> ->]; reflexivity | intros Heq; injection Heq; auto].
Qed.

Lemma ToLower_cluster d :
  ToLower d = "cluster" <-> EqualFoldASCII d "cluster" = true.
Proof. rewrite EqualFoldASCII_ToLower. reflexivity. Qed.

Lemma findDomain_found m d :
  NoDup m.*1 -> (VString "domain", VString d) ∈ m -> findDomain m = (d, None).
Proof.
  induction m as [|[k v] m IH]; intros Hnd Hin.
  - now apply elem_of_nil in Hin.
  - cbn in Hnd. apply NoDup_cons in Hnd as [Hk Hnd].
    apply elem_of_cons in Hin as [Heq | Hin].
    + injection Heq as <- <-. cbn.
      rewrite bool_decide_eq_true_2 by reflexivity. reflexivity.
    + cbn. destruct k; try (now apply IH).
      case_bool_decide as Hs; [|now apply IH].
      subst s. exfalso. apply Hk.
      apply list_elem_of_fmap. now exists (VString "domain", VString d).
Qed.

Lemma findDomain_missing m :
  (forall d, (VString "domain", VString d) ∉ m) ->
  exists e, findDomain m = ("", Some e).
Proof.
  induction m as [|[k v] m IH]; intros Hno.
  - cbn. eauto.
  - assert (Hm : forall d, (VString "domain", VString d) ∉ m).
    { intros d Hin. apply (Hno d). now apply elem_of_cons; right. }
    cbn. destruct k; try (now apply IH).
    case_bool_decide as Hs; [|now apply IH].
    subst s. destruct v; eauto.
    exfalso. apply (Hno s). apply elem_of_cons. now left.
Qed.

(** The order in which the map is visited does not matter. *)
Lemma findDomain_any_order m m' d :
  NoDup m.*1 -> m ≡ₚ m' -> (VString "domain", VString d) ∈ m ->
  findDomain m' = findDomain m.
Proof.
  intros Hnd Hp Hin.
  rewrite (findDomain_found m d Hnd Hin).
  apply findDomain_found.
  - now rewrite <- Hp.
  - now rewrite <- Hp.
Qed.

Section Routing.

Context {Q : Type} `{!bs.Conn Q}.
Variable Decode : string -> Value * option error.

Implicit Types (w : @World Q) (job : bs.Job) (b : Broker) (o : cli.Options).

Lemma getJobWD_domain o job m d :
  Decode (bs.Body job) = (VMap m, None) ->
  NoDup m.*1 -> (VString "domain", VString d) ∈ m ->
  getJobWD Decode o job
  = (if EqualFoldASCII d "cluster" then cli.ClusterRoot o +:+ "/worker"
     else cli.InstanceRoot o +:+ "/" +:+ d +:+ "/worker", None).
Proof.
  intros Hdec Hnd Hin. unfold getJobWD. rewrite Hdec.
  rewrite (findDomain_found m d Hnd Hin).
  destruct (EqualFoldASCII d "cluster") eqn:Hfold.
  - apply ToLower_cluster in Hfold.
    rewrite bool_decide_eq_true_2 by assumption. reflexivity.
  - rewrite bool_decide_eq_false_2; [reflexivity|].
    intros Hl. apply ToLower_cluster in Hl. congruence.
Qed.

Lemma getJobWD_error o job :
  (exists v e, Decode (bs.Body job) = (v, Some e))
  \/ (exists v, Decode (bs.Body job) = (v, None) /\ forall m, v <> VMap m)
  \/ (exists m, Decode (bs.Body job) = (VMap m, None)
               /\ forall d, (VString "domain", VString d) ∉ m) ->
  exists e, getJobWD Decode o job = ("", Some e).
Proof.
  unfold getJobWD. intros [(v & e & ->) | [(v & -> & Hv) | (m & -> & Hm)]].
  - eauto.
  - destruct v; eauto. now destruct (Hv entries).
  - destruct (findDomain_missing m Hm) as (e & ->). eauto.
Qed.

Lemma Run_body_passes_checks b w id body t1 t q1 r q2 :
  bs.MustReserveWithoutTimeout (ts w) = Returns (id, body) t1 ->
  bs.Timeouts {| bs.Id := id; bs.Body := body |} (conn w) = ((t, None), q1) ->
  t < TimeoutTries ->
  bs.Releases {| bs.Id := id; bs.Body := body |} q1 = ((r, None), q2) ->
  r < ReleaseTries ->
  Run_body Decode b w
  = Run_execute Decode b {| bs.Id := id; bs.Body := body |}
      {| conn := q2; ts := t1; procs := procs w; spawned := spawned w;
         events := events w ++ [EvTimeouts id; EvReleases id];
         logs := logs w ++ [(Info, "reserve (waiting for job)")] |}.
Proof.
  intros Hres Ht Hlt Hr Hlr.
  unfold Run_body, bind at 1 2 3, logf at 1. cbn.
  rewrite (reserve_returns _ id body t1) by exact Hres. cbn.
  unfold job_Timeouts, call. cbn. rewrite Ht. cbn.
  apply Z.leb_gt in Hlt. rewrite Hlt.
  unfold bind at 1, job_Releases, call. cbn. rewrite Hr. cbn.
  apply Z.leb_gt in Hlr. rewrite Hlr.
  unfold set_conn, emit. cbn. rewrite <- app_assoc. reflexivity.
Qed.

Lemma Run_execute_wd_error b job w wd e :
  getJobWD Decode (options b) job = (wd, Some e) ->
  Run_execute Decode b job w
  = Returns Return
      {| conn := conn w; ts := ts w; procs := procs w; spawned := spawned w;
         events := events w; logs := logs w ++ [(Error_, "%v")] |}.
Proof. intros Hwd. unfold Run_execute. rewrite Hwd. reflexivity. Qed.

(** C4.  When the payload decodes to a map in which the string key
    "domain" has a string value, the directory is [ClusterRoot]/worker if
    that value equals "cluster" up to case, and [InstanceRoot]/value/worker
    otherwise, whatever the order in which the map is visited.  When the
    payload does not decode, or not to a map, or the map has no string under
    "domain", [getJobWD] returns an error, and the pass through the loop ends
    there: nothing is executed and nothing is called on the connection. *)
Theorem getJobWD_resolution o job :
  (forall m d,
     Decode (bs.Body job) = (VMap m, None) ->
     NoDup m.*1 -> (VString "domain", VString d) ∈ m ->
     (EqualFoldASCII d "cluster" = true ->
      getJobWD Decode o job = (cli.ClusterRoot o +:+ "/worker", None))
     /\ (EqualFoldASCII d "cluster" = false ->
         getJobWD Decode o job
         = (cli.InstanceRoot o +:+ "/" +:+ d +:+ "/worker", None)))
  /\ ((exists v e, Decode (bs.Body job) = (v, Some e))
      \/ (exists v, Decode (bs.Body job) = (v, None) /\ forall m, v <> VMap m)
      \/ (exists m, Decode (bs.Body job) = (VMap m, None)
                    /\ forall d, (VString "domain", VString d) ∉ m) ->
      (exists e, getJobWD Decode o job = ("", Some e))
      /\ forall b w,
           options b = o ->
           exists w',
             Run_execute Decode b job w = Returns Return w'
             /\ events w' = events w
             /\ spawned w' = spawned w
             /\ conn w' = conn w).
Proof.
  split.
  - intros m d Hdec Hnd Hin.
    pose proof (getJobWD_domain o job m d Hdec Hnd Hin) as Hwd.
    split; intros Hfold; rewrite Hfold in Hwd; exact Hwd.
  - intros Hbad. destruct (getJobWD_error o job Hbad) as (e & Hwd).
    split; [eauto|].
    intros b w <-. rewrite (Run_execute_wd_error b job w "" e Hwd).
    eexists. split; [reflexivity|]. cbn. auto.
Qed.

End Routing.

Example getJobWD_cluster :
  getJobWD example.decode example.opts {| bs.Id := 1; bs.Body := "cluster job" |}
  = ("/opt/cluster/worker", None).
Proof. reflexivity. Qed.

Example getJobWD_instance :
  getJobWD example.decode example.opts example.job7
  = ("/var/www/html/acme/worker", None).
Proof. reflexivity. Qed.

Example getJobWD_not_a_map :
  getJobWD example.decode example.opts {| bs.Id := 2; bs.Body := "list" |}
  = ("", Some (Errorf_val "failed to interpret the job packet, expecting a map got %v"
                 (VSlice [VString "domain"]))).
Proof. reflexivity. Qed.

(** ** The execution supervisor *)

Section Supervisor.

Context {Q : Type} `{!bs.Conn Q}.

Implicit Types (w : @World Q) (job : bs.Job) (b : Broker) (c : cmd.Cmd).
Implicit Types (result : JobResult).

Lemma stdoutReader_keeps c sel armed result w d w' :
  stdoutReader c sel armed result w = Returns d w' ->
  let r := match d with ReturnEarly r _ => r | BreakLoop r _ => r end in
  Executed r = Executed result /\ JobId r = JobId result
  /\ Buried r = Buried result /\ Error r = Error result.
Proof.
  revert armed result w.
  induction sel as [|[t|t data|t] sel IH]; intros armed result w Hrun; cbn in Hrun.
  - discriminate.
  - destruct armed; [|discriminate].
    unfold bind, cmd_Terminate, act, pure in Hrun. cbn in Hrun.
    destruct (cmd.Terminate_err c) as [e|].
    + injection Hrun as <- <-. cbn. auto.
    + apply IH in Hrun. exact Hrun.
  - unfold bind, logf in Hrun. cbn in Hrun. apply IH in Hrun. exact Hrun.
  - injection Hrun as <- <-. cbn. auto.
Qed.

Lemma waitLoop_keeps c sel armed result err w r err' w' :
  waitLoop c sel armed result err w = Returns (r, err') w' ->
  Executed r = Executed result /\ JobId r = JobId result
  /\ Buried r = Buried result /\ Error r = Error result.
Proof.
  revert armed result w.
  induction sel as [|[t wr|t] sel IH]; intros armed result w Hrun; cbn in Hrun.
  - discriminate.
  - unfold bind, act, pure in Hrun. cbn in Hrun. injection Hrun as <- <- <-.
    cbn. auto.
  - destruct armed; [|discriminate].
    unfold bind, cmd_Terminate, act, pure in Hrun. cbn in Hrun.
    apply IH in Hrun. exact Hrun.
Qed.

(** The supervisor never sets [Error], and returns an error of its own only
    from the time-left query, from the construction or the start of the
    command, or from a termination during the drain. *)
(** The supervisor step by step: the query, the timer, the command, its
    start, the drain and the wait. *)
Lemma executeJob_unfold b job cwd w :
  executeJob b job cwd w
  = let '((ttr, e), q) := bs.TimeLeft job (conn w) in
    let c := procs w (spawned w) in
    let w1 :=
      {| conn := q; ts := ts w; procs := procs w; spawned := spawned w;
         events := events w ++ [EvTimeLeft (bs.Id job);
                                EvNewTimer (int64_add ttr ttrMargin)];
         logs := logs w |} in
    let w2 :=
      {| conn := q; ts := ts w; procs := procs w; spawned := S (spawned w);
         events := events w1 ++ [EvNewCommand cwd (argv b)]; logs := logs w |} in
    let w3 :=
      {| conn := q; ts := ts w; procs := procs w; spawned := S (spawned w);
         events := events w2 ++ [EvStartWithStdin (bs.Body job)];
         logs := logs w |} in
    match e, cmd.NewCommand_err c, cmd.StartWithStdin_err c with
    | Some e, _, _ => Returns (attempted job, Some e) w1
    | None, Some e, _ => Returns (attempted job, Some e) w2
    | None, None, Some e => Returns (attempted job, Some e) w3
    | None, None, None =>
        match stdoutReader c (cmd.drain c) true (attempted job) w3 with
        | Returns (ReturnEarly r e) w4 => Returns (r, e) w4
        | Returns (BreakLoop r armed) w4 => waitLoop c (cmd.wait c) armed r None w4
        | Blocks w4 => Blocks w4
        | Panics msg w4 => Panics msg w4
        end
    end.
Proof.
  unfold executeJob, bind, job_TimeLeft, call, act, cmd_NewCommand,
    cmd_StartWithStdin, pure, bind, act, emit, set_conn. cbn.
  destruct (bs.TimeLeft job (conn w)) as [[ttr e] q]. cbn.
  rewrite <- app_assoc. cbn.
  destruct e as [e|]; [reflexivity|].
  destruct (cmd.NewCommand_err _) as [e|]; [reflexivity|].
  destruct (cmd.StartWithStdin_err _) as [e|]; [reflexivity|].
  destruct (stdoutReader _ _ _ _ _) as [[r e|r armed] w4|w4|msg w4]; reflexivity.
Qed.

Lemma executeJob_result b job cwd w result err w' :
  executeJob b job cwd w = Returns (result, err) w' ->
  Executed result = true /\ JobId result = bs.Id job
  /\ Buried result = false /\ Error result = None.
Proof.
  rewrite executeJob_unfold.
  destruct (bs.TimeLeft job (conn w)) as [[ttr e] q]. cbn zeta.
  destruct e as [e|];
    [intros Hrun; injection Hrun as <- <- <-; cbn; auto|].
  destruct (cmd.NewCommand_err _) as [e|];
    [intros Hrun; injection Hrun as <- <- <-; cbn; auto|].
  destruct (cmd.StartWithStdin_err _) as [e|];
    [intros Hrun; injection Hrun as <- <- <-; cbn; auto|].
  destruct (stdoutReader _ _ _ _ _) as [d w1| |] eqn:Hdrain; try discriminate.
  apply stdoutReader_keeps in Hdrain. cbn in Hdrain.
  destruct d as [r e|r armed].
  - intros Hrun. injection Hrun as <- <- <-. exact Hdrain.
  - intros Hrun. apply waitLoop_keeps in Hrun.
    destruct Hdrain as (He & Hj & Hb & Herr).
    destruct Hrun as (-> & -> & -> & ->). auto.
Qed.





Lemma executeJob_NewCommand_error b job cwd w ttr q e :
  bs.TimeLeft job (conn w) = ((ttr, None), q) ->
  cmd.NewCommand_err (procs w (spawned w)) = Some e ->
  exists w',
    executeJob b job cwd w = Returns (attempted job, Some e) w'
    /\ events w'
       = events w ++ [EvTimeLeft (bs.Id job);
                      EvNewTimer (int64_add ttr ttrMargin);
                      EvNewCommand cwd (argv b)].
Proof.
  intros Hleft Hnew. rewrite executeJob_unfold, Hleft. cbn zeta.
  rewrite Hnew. eexists. split; [reflexivity|]. cbn.
  rewrite <- app_assoc. reflexivity.
Qed.

(** C10.  Whatever [executeJob] returns carries [Executed] = true: the
    flag is part of the result from the first line on.  In particular the
    attempts that end before an executor runs return such a result: a failed
    time-left query (no command is constructed), a failed construction of
    the command (nothing is started) and a failed start. *)
Theorem executeJob_Executed b job cwd w :
  (forall result err w',
     executeJob b job cwd w = Returns (result, err) w' -> Executed result = true)
  /\ (forall ttr e q,
        bs.TimeLeft job (conn w) = ((ttr, Some e), q) ->
        exists w',
          executeJob b job cwd w = Returns (attempted job, Some e) w'
          /\ Executed (attempted job) = true
          /\ spawned w' = spawned w
          /\ events w'
             = events w ++ [EvTimeLeft (bs.Id job);
                            EvNewTimer (int64_add ttr ttrMargin)])
  /\ (forall ttr q e,
        bs.TimeLeft job (conn w) = ((ttr, None), q) ->
        cmd.NewCommand_err (procs w (spawned w)) = Some e ->
        exists w',
          executeJob b job cwd w = Returns (attempted job, Some e) w'
          /\ Executed (attempted job) = true
          /\ events w'
             = events w ++ [EvTimeLeft (bs.Id job);
                            EvNewTimer (int64_add ttr ttrMargin);
                            EvNewCommand cwd (argv b)])
  /\ (forall ttr q e,
        bs.TimeLeft job (conn w) = ((ttr, None), q) ->
        cmd.NewCommand_err (procs w (spawned w)) = None ->
        cmd.StartWithStdin_err (procs w (spawned w)) = Some e ->
        exists w',
          executeJob b job cwd w = Returns (attempted job, Some e) w'
          /\ Executed (attempted job) = true
          /\ events w'
             = events w ++ [EvTimeLeft (bs.Id job);
                            EvNewTimer (int64_add ttr ttrMargin);
                            EvNewCommand cwd (argv b);
                            EvStartWithStdin (bs.Body job)]).
Proof.
  split; [|split; [|split]].
  - intros result err w' Hrun. now apply executeJob_result in Hrun.
  - intros ttr e q Hleft. rewrite executeJob_unfold, Hleft. cbn.
    eexists. split; [reflexivity|]. cbn. auto.
  - intros ttr q e Hleft Hnew.
    destruct (executeJob_NewCommand_error b job cwd w ttr q e Hleft Hnew)
      as (w' & Hrun & Hev).
    exists w'. auto.
  - intros ttr q e Hleft Hnew Hstart. rewrite executeJob_unfold, Hleft. cbn zeta.
    rewrite Hnew, Hstart. eexists. split; [reflexivity|]. cbn.
    rewrite <- !app_assoc. auto.
Qed.

End Supervisor.

Example executeJob_offline :
  executeJob (example.worker None) example.job7 "/var/www/html/acme/worker"
    (example.world example.offline [] (example.quick 3 0))
  = Returns (attempted example.job7, Some example.eof)
      {| conn := example.offline; ts := {| bs.answers := []; bs.steps := [] |};
         procs := fun _ => example.quick 3 0; spawned := 0;
         events := [EvTimeLeft 7; EvNewTimer (1 * Second)]; logs := [] |}.
Proof. reflexivity. Qed.



(** ** Errors of a job attempt *)

Section JobErrors.

Context {Q : Type} `{!bs.Conn Q}.
Variable Decode : string -> Value * option error.

Implicit Types (w : @World Q) (job : bs.Job) (b : Broker).

Lemma Run_execute_exec_error b job w wd result e w3 :
  getJobWD Decode (options b) job = (wd, None) ->
  executeJob b job wd (note Info "executing job %d in path %s" w)
  = Returns (result, Some e) w3 ->
  Run_execute Decode b job w = Returns Return (note Error_ "%v" w3).
Proof.
  intros Hwd Hexec. unfold Run_execute. rewrite Hwd.
  unfold bind at 1, logf at 1. unfold bind at 1. rewrite Hexec. reflexivity.
Qed.

Lemma Run_loop_stops b n closed w w' :
  Run_body Decode b w = Returns Return w' ->
  Run_loop Decode b (S n) closed w = Returns tt w'.
Proof. intros Hbody. cbn. unfold bind. rewrite Hbody. reflexivity. Qed.

(** C6, as the code has it.  For a job that passed both checks, an error of
    [getJobWD] and an error returned by [executeJob] (such as a command that
    cannot be created) are logged and end [Run]: the pass returns instead of
    continuing, whatever ticks remain, with no [Release], [Delete] or result
    for the job.  The [Error] field of the result is [nil] in every case. *)
Theorem Run_stops_on_job_error b w id body t1 t q1 r q2 :
  bs.MustReserveWithoutTimeout (ts w) = Returns (id, body) t1 ->
  bs.Timeouts {| bs.Id := id; bs.Body := body |} (conn w) = ((t, None), q1) ->
  t < TimeoutTries ->
  bs.Releases {| bs.Id := id; bs.Body := body |} q1 = ((r, None), q2) ->
  r < ReleaseTries ->
  let job := {| bs.Id := id; bs.Body := body |} in
  let w2 :=
    {| conn := q2; ts := t1; procs := procs w; spawned := spawned w;
       events := events w ++ [EvTimeouts id; EvReleases id];
       logs := logs w ++ [(Info, "reserve (waiting for job)")] |} in
  (forall wd e,
     getJobWD Decode (options b) job = (wd, Some e) ->
     exists w',
       Run_body Decode b w = Returns Return w'
       /\ events w' = events w ++ [EvTimeouts id; EvReleases id]
       /\ spawned w' = spawned w)
  /\ (forall wd result e w3,
        getJobWD Decode (options b) job = (wd, None) ->
        executeJob b job wd (note Info "executing job %d in path %s" w2)
        = Returns (result, Some e) w3 ->
        exists w',
          Run_body Decode b w = Returns Return w'
          /\ events w' = events w3 /\ conn w' = conn w3
          /\ Error result = None)
  /\ (forall wd ttr q3 e,
        getJobWD Decode (options b) job = (wd, None) ->
        bs.TimeLeft job q2 = ((ttr, None), q3) ->
        cmd.NewCommand_err (procs w (spawned w)) = Some e ->
        exists w',
          Run_body Decode b w = Returns Return w'
          /\ events w'
             = events w ++ [EvTimeouts id; EvReleases id; EvTimeLeft id;
                            EvNewTimer (int64_add ttr ttrMargin);
                            EvNewCommand wd (argv b)])
  /\ (forall n closed w',
        Run_body Decode b w = Returns Return w' ->
        Run_loop Decode b (S n) closed w = Returns tt w').
Proof.
  intros Hres Ht Hlt Hr Hlr job w2.
  pose proof (Run_body_passes_checks Decode b w id body t1 t q1 r q2
                Hres Ht Hlt Hr Hlr) as Hbody.
  fold job in Hbody. fold w2 in Hbody.
  split; [|split; [|split]].
  - intros wd e Hwd. rewrite Hbody, (Run_execute_wd_error Decode b job w2 wd e Hwd).
    eexists. split; [reflexivity|]. cbn. auto.
  - intros wd result e w3 Hwd Hexec.
    rewrite Hbody, (Run_execute_exec_error b job w2 wd result e w3 Hwd Hexec).
    eexists. split; [reflexivity|]. cbn.
    apply executeJob_result in Hexec. tauto.
  - intros wd ttr q3 e Hwd Hleft Hnew.
    destruct (executeJob_NewCommand_error b job wd
                (note Info "executing job %d in path %s" w2) ttr q3 e Hleft Hnew)
      as (w3 & Hexec & Hev).
    rewrite Hbody, (Run_execute_exec_error b job w2 wd _ e w3 Hwd Hexec).
    eexists. split; [reflexivity|]. cbn. rewrite Hev. cbn.
    rewrite <- app_assoc. reflexivity.
  - intros n closed w' Hret. now apply Run_loop_stops.
Qed.

(** A worker whose pacing channel is closed returns at its next read of
    the channel and calls [fin]. *)
Lemma Run_returns_when_ticks_closed b w q :
  bs.Dial (Address b) (conn w) = (None, q) ->
  exists w',
    Run Decode b {| tokens := 0; closed := true |} w = Returns tt w'
    /\ events w' = events w ++ [EvDial (Address b); EvFin].
Proof.
  intros Hdial. unfold Run, defer, bind, call, logf. cbn. rewrite Hdial. cbn.
  eexists. split; [reflexivity|]. cbn. rewrite <- app_assoc. reflexivity.
Qed.

End JobErrors.

(** With two ticks and two jobs at hand, a payload that does not decode
    ends the worker after the first job: the second job is never reserved.
    So does a command that cannot be created.  Neither error is put into a
    result, and no result is sent. *)
Lemma worker_stops_on_job_error :
  (exists w',
     Run example.decode (example.worker (Some 0%nat)) {| tokens := 2; closed := false |}
       (example.world (example.server 0 0)
          [bs.Reserved 7 "garbage"; bs.Reserved 8 "payload"] (example.quick 3 0))
     = Returns tt w'
     /\ events w' = [EvDial "127.0.0.1:11300"; EvTimeouts 7; EvReleases 7; EvFin]
     /\ bs.answers (ts w') = [bs.Reserved 8 "payload"])
  /\ (exists w',
        Run example.decode (example.worker (Some 0%nat))
          {| tokens := 2; closed := false |}
          (example.world (example.server 0 0)
             [bs.Reserved 7 "payload"; bs.Reserved 8 "payload"] example.missing)
        = Returns tt w'
        /\ events w'
           = [EvDial "127.0.0.1:11300"; EvTimeouts 7; EvReleases 7; EvTimeLeft 7;
              EvNewTimer (6 * Second);
              EvNewCommand "/var/www/html/acme/worker"
                (argv (example.worker (Some 0%nat)));
              EvFin]
        /\ bs.answers (ts w') = [bs.Reserved 8 "payload"]).
Proof.
  split; eexists; (split; [vm_compute; reflexivity|]);
    split; vm_compute; reflexivity.
Qed.

Lemma Run_stops_on_job_error_witness :
  exists w',
    Run_body example.decode (example.worker (Some 0%nat))
      (example.world (example.server 0 0) [bs.Reserved 7 "garbage"]
         (example.quick 3 0))
    = Returns Return w'
    /\ events w' = [EvTimeouts 7; EvReleases 7].
Proof.
  destruct (@Run_stops_on_job_error _ example.server_conn example.decode
              (example.worker (Some 0%nat))
              (example.world (example.server 0 0) [bs.Reserved 7 "garbage"]
                 (example.quick 3 0))
              7 "garbage" {| bs.answers := []; bs.steps := [] |}
              0 (example.server 0 0) 0 (example.server 0 0)
              eq_refl eq_refl ltac:(unfold TimeoutTries; lia)
              eq_refl ltac:(unfold ReleaseTries; lia)) as (H & _).
  destruct (H "" (Errorf_err "failed to unserialize the job, error: %s"
                    (errors_New "php_serialize: Invalid format")) eq_refl)
    as (w' & Hrun & Hev & _).
  exists w'. split; [exact Hrun | exact Hev].
Defined.

(** ** The reserve adapter *)

Lemma MustReserveWithoutTimeout_loop_failed failure rest st :
  bs.MustReserveWithoutTimeout_loop (bs.failed failure :: rest) st
  = bs.MustReserveWithoutTimeout_loop rest (st ++ [bs.retry failure]).
Proof. destruct failure as [op []]; reflexivity. Qed.

Lemma MustReserveWithoutTimeout_loop_failures failures rest st :
  bs.MustReserveWithoutTimeout_loop ((bs.failed <$> failures) ++ rest) st
  = bs.MustReserveWithoutTimeout_loop rest (st ++ (bs.retry <$> failures)).
Proof.
  revert st. induction failures as [|failure failures IH]; intros st.
  - cbn. now rewrite app_nil_r.
  - rewrite fmap_cons, <- app_comm_cons, MustReserveWithoutTimeout_loop_failed, IH.
    rewrite fmap_cons, <- app_assoc. reflexivity.
Qed.

(** C9, as the code has it.  Whatever errors the connection reports before
    a job arrives, the adapter returns that job: a timeout is retried at
    once, a deadline-soon after a sleep of one second, and any other error is
    logged and retried at once as well.  As long as only errors arrive the
    adapter keeps looping; it has no way to report an error to its caller. *)
Theorem MustReserveWithoutTimeout_absorbs failures :
  (forall id body rest st,
     bs.MustReserveWithoutTimeout
       {| bs.answers := (bs.failed <$> failures) ++ bs.Reserved id body :: rest;
          bs.steps := st |}
     = Returns (id, body)
         {| bs.answers := rest; bs.steps := st ++ (bs.retry <$> failures) |})
  /\ (forall st,
        bs.MustReserveWithoutTimeout
          {| bs.answers := bs.failed <$> failures; bs.steps := st |}
        = Blocks {| bs.answers := []; bs.steps := st ++ (bs.retry <$> failures) |})
  /\ (forall op e,
        bs.retry (op, e)
        = match e with
          | ErrTimeout => bs.RetryNow
          | ErrDeadline => bs.SleepThenRetry (1 * Second)
          | _ => bs.LogErrorThenRetry (ConnError op e)
          end).
Proof.
  split; [|split].
  - intros id body rest st. unfold bs.MustReserveWithoutTimeout. cbn.
    now rewrite MustReserveWithoutTimeout_loop_failures.
  - intros st. unfold bs.MustReserveWithoutTimeout. cbn.
    rewrite <- (app_nil_r (bs.failed <$> failures)).
    now rewrite MustReserveWithoutTimeout_loop_failures.
  - intros op []; reflexivity.
Qed.

(** An error that is neither a timeout nor a deadline-soon does not end the
    caller: the job that arrives after it is returned. *)
Lemma MustReserveWithoutTimeout_survives_error :
  bs.MustReserveWithoutTimeout
    {| bs.answers := [bs.ReserveFailed (ConnError "reserve-with-timeout" (ErrIO "EOF"));
                      bs.Reserved 7 "payload"];
       bs.steps := [] |}
  = Returns (7, "payload")
      {| bs.answers := [];
         bs.steps := [bs.LogErrorThenRetry
                        (ConnError "reserve-with-timeout" (ErrIO "EOF"))] |}.
Proof. reflexivity. Qed.

(** ** The dispatcher *)

Lemma run_closing_and_then {A B} (t : dispatcher.Task A) (f : A -> dispatcher.D B) :
  dispatcher.run_closing (dispatcher.and_then t f)
  = match dispatcher.run_closing t with
    | dispatcher.Done a w => dispatcher.run_closing (f a w)
    | dispatcher.AwaitRet w k =>
        dispatcher.AwaitRet w (fun w' => dispatcher.and_then (k w') f)
    | dispatcher.Panic msg w => dispatcher.Panic msg w
    end.
Proof. induction t as [a w|w k IH|msg w]; cbn; auto. Qed.

Lemma close_ret_closed d :
  dispatcher.ret d = ChanClosed -> dispatcher.close_ret d = d.
Proof. destruct d; cbn; now intros ->. Qed.

(** The end of a call of [runBroker] whose frame is the last one. *)
Lemma finish_new_frame d fs f lt sd :
  dispatcher.ticker f = ChanOpen ->
  dispatcher.finish (length fs)
    {| dispatcher.bd := d; dispatcher.frames := fs ++ [f];
       dispatcher.ListTubes := lt; dispatcher.sending := sd |}
  = (if sd (length fs) then dispatcher.Panic "send on closed channel"
     else dispatcher.Done tt)
      {| dispatcher.bd := d; dispatcher.frames := fs ++ [dispatcher.stop_frame f];
         dispatcher.ListTubes := lt; dispatcher.sending := sd |}.
Proof.
  intros Hopen.
  assert (Halter : alter dispatcher.stop_frame (length fs) (fs ++ [f])
                   = fs ++ [dispatcher.stop_frame f]).
  { replace (length fs) with (length fs + 0)%nat by lia.
    rewrite alter_app_r. reflexivity. }
  unfold dispatcher.finish. cbn.
  rewrite list_lookup_middle by reflexivity. cbn. rewrite Hopen, Halter.
  destruct (sd (length fs)); reflexivity.
Qed.

Lemma runBroker_closing tube slot w :
  dispatcher.run_closing (dispatcher.runBroker tube slot w)
  = (if dispatcher.sending w (length (dispatcher.frames w))
     then dispatcher.Panic "send on closed channel"
     else dispatcher.Done tt)
      {| dispatcher.bd := dispatcher.close_ret (dispatcher.Add 1 (dispatcher.bd w));
         dispatcher.frames :=
           dispatcher.frames w
           ++ [dispatcher.launched (dispatcher.options (dispatcher.bd w)) tube slot];
         dispatcher.ListTubes := dispatcher.ListTubes w;
         dispatcher.sending := dispatcher.sending w |}.
Proof.
  unfold dispatcher.runBroker, dispatcher.bind, dispatcher.start. cbn.
  unfold dispatcher.receive_ret. cbn.
  destruct (dispatcher.ret (dispatcher.bd w)) eqn:Hret; cbn.
  - unfold dispatcher.with_bd. cbn. rewrite finish_new_frame by reflexivity.
    destruct (dispatcher.sending w _); reflexivity.
  - rewrite finish_new_frame by reflexivity.
    rewrite close_ret_closed by exact Hret.
    destruct (dispatcher.sending w _); reflexivity.
Qed.

Lemma for_each_runBroker_closing tube l w :
  (forall i, dispatcher.sending w i = false) ->
  exists w',
    dispatcher.run_closing (dispatcher.for_each l (dispatcher.runBroker tube) w)
    = dispatcher.Done tt w'
    /\ dispatcher.frames w'
       = dispatcher.frames w
         ++ (dispatcher.launched (dispatcher.options (dispatcher.bd w)) tube <$> l)
    /\ dispatcher.wg (dispatcher.bd w')
       = dispatcher.wg (dispatcher.bd w) + Z.of_nat (length l)
    /\ dispatcher.tubeSet (dispatcher.bd w') = dispatcher.tubeSet (dispatcher.bd w)
    /\ dispatcher.options (dispatcher.bd w') = dispatcher.options (dispatcher.bd w).
Proof.
  revert w. induction l as [|slot l IH]; intros w Hs.
  - exists w. cbn. rewrite app_nil_r. repeat split; lia.
  - cbn [dispatcher.for_each]. unfold dispatcher.bind.
    rewrite run_closing_and_then, runBroker_closing, Hs.
    match goal with |- context [dispatcher.for_each l _ ?w1] =>
      destruct (IH w1 Hs) as (w' & Hrun & Hfr & Hwg & Hts & Hop) end.
    exists w'. cbn in Hfr, Hwg, Hts, Hop.
    split; [exact Hrun|]. split; [|split; [|split]].
    + rewrite Hfr, fmap_cons, <- app_assoc. reflexivity.
    + rewrite Hwg. cbn [length]. lia.
    + exact Hts.
    + exact Hop.
Qed.

Lemma slots_length perTube :
  0 <= perTube -> Z.of_nat (length (dispatcher.slots perTube)) = perTube.
Proof.
  intros Hp. unfold dispatcher.slots. rewrite length_fmap, length_seq. lia.
Qed.

Lemma slots_first perTube :
  1 <= perTube -> exists rest, dispatcher.slots perTube = 0 :: rest.
Proof.
  intros Hp. unfold dispatcher.slots.
  destruct (Z.to_nat perTube) as [|n] eqn:Hn; [lia|].
  cbn. eauto.
Qed.

(** Let run to its end with pumps that are not caught in their send, a
    call of [RunTube] gets through all its slots. *)
Lemma RunTube_closing tube w :
  (forall i, dispatcher.sending w i = false) ->
  exists w',
    dispatcher.run_closing (dispatcher.RunTube tube w) = dispatcher.Done tt w'
    /\ dispatcher.frames w'
       = dispatcher.frames w
         ++ (dispatcher.launched (dispatcher.options (dispatcher.bd w)) tube
               <$> dispatcher.slots (dispatcher.perTube (dispatcher.bd w)))
    /\ dispatcher.wg (dispatcher.bd w')
       = dispatcher.wg (dispatcher.bd w)
         + Z.of_nat (length (dispatcher.slots (dispatcher.perTube (dispatcher.bd w))))
    /\ dispatcher.watched (dispatcher.bd w') tube = true.
Proof.
  intros Hs. unfold dispatcher.RunTube, dispatcher.bind. cbn.
  destruct (for_each_runBroker_closing tube
              (dispatcher.slots (dispatcher.perTube (dispatcher.bd w)))
              (dispatcher.with_bd (dispatcher.mark tube) w) Hs)
    as (w' & Hrun & Hfr & Hwg & Hts & _).
  exists w'. cbn in Hfr, Hwg, Hts. split; [exact Hrun|].
  split; [exact Hfr|]. split; [exact Hwg|].
  unfold dispatcher.watched. rewrite Hts, lookup_insert_eq. reflexivity.
Qed.

(** With the pump of its first slot in its send, the call ends there, in
    the panic of the pump. *)
Lemma RunTube_closing_panics tube w :
  1 <= dispatcher.perTube (dispatcher.bd w) ->
  dispatcher.sending w (length (dispatcher.frames w)) = true ->
  exists w',
    dispatcher.run_closing (dispatcher.RunTube tube w)
    = dispatcher.Panic "send on closed channel" w'
    /\ dispatcher.frames w'
       = dispatcher.frames w
         ++ [dispatcher.launched (dispatcher.options (dispatcher.bd w)) tube 0]
    /\ dispatcher.wg (dispatcher.bd w') = dispatcher.wg (dispatcher.bd w) + 1.
Proof.
  intros Hp Hs. destruct (slots_first _ Hp) as (slots' & Hslots).
  unfold dispatcher.RunTube, dispatcher.bind at 1.
  cbn [dispatcher.and_then dispatcher.with_bd dispatcher.bd dispatcher.mark
       dispatcher.perTube].
  rewrite Hslots. cbn [dispatcher.for_each]. unfold dispatcher.bind at 1.
  rewrite run_closing_and_then, runBroker_closing.
  unfold dispatcher.with_bd. cbn [dispatcher.sending dispatcher.frames]. rewrite Hs.
  eexists. split; [reflexivity|]. cbn. auto.
Qed.

Lemma watchNewTubes_all_watched tubes w :
  dispatcher.ListTubes w = (tubes, None) ->
  Forall (fun tube => dispatcher.watched (dispatcher.bd w) tube = true) tubes ->
  dispatcher.watchNewTubes w = dispatcher.Done None w.
Proof.
  intros Hlist Hall. unfold dispatcher.watchNewTubes. rewrite Hlist.
  unfold dispatcher.bind.
  assert (Hfor :
    dispatcher.for_each tubes
      (fun tube w' =>
         if dispatcher.watched (dispatcher.bd w') tube then dispatcher.Done tt w'
         else dispatcher.RunTube tube w') w
    = dispatcher.Done tt w).
  { clear Hlist. induction Hall as [|tube tubes Htube Hall IH]; [reflexivity|].
    cbn [dispatcher.for_each]. unfold dispatcher.bind. rewrite Htube.
    cbn [dispatcher.and_then]. exact IH. }
  rewrite Hfor. reflexivity.
Qed.

Lemma runBroker_waits tube slot w :
  dispatcher.ret (dispatcher.bd w) = ChanOpen ->
  dispatcher.runBroker tube slot w
  = dispatcher.AwaitRet
      {| dispatcher.bd := dispatcher.Add 1 (dispatcher.bd w);
         dispatcher.frames :=
           dispatcher.frames w
           ++ [dispatcher.waiting (dispatcher.options (dispatcher.bd w)) tube slot];
         dispatcher.ListTubes := dispatcher.ListTubes w;
         dispatcher.sending := dispatcher.sending w |}
      (fun w' =>
         dispatcher.and_then (dispatcher.Done tt w')
           (fun _ => dispatcher.finish (length (dispatcher.frames w)))).
Proof.
  intros Hopen. unfold dispatcher.runBroker, dispatcher.bind, dispatcher.start. cbn.
  unfold dispatcher.receive_ret. cbn. rewrite Hopen. reflexivity.
Qed.

Lemma RunTube_waits tube w :
  dispatcher.ret (dispatcher.bd w) = ChanOpen ->
  1 <= dispatcher.perTube (dispatcher.bd w) ->
  exists k,
    dispatcher.RunTube tube w
    = dispatcher.AwaitRet
        {| dispatcher.bd :=
             dispatcher.Add 1 (dispatcher.mark tube (dispatcher.bd w));
           dispatcher.frames :=
             dispatcher.frames w
             ++ [dispatcher.waiting (dispatcher.options (dispatcher.bd w)) tube 0];
           dispatcher.ListTubes := dispatcher.ListTubes w;
           dispatcher.sending := dispatcher.sending w |} k.
Proof.
  intros Hopen Hp. destruct (slots_first _ Hp) as (slots' & Hslots).
  unfold dispatcher.RunTube, dispatcher.bind at 1.
  cbn [dispatcher.and_then dispatcher.with_bd dispatcher.bd dispatcher.mark
       dispatcher.perTube].
  rewrite Hslots. cbn [dispatcher.for_each]. unfold dispatcher.bind at 1.
  rewrite runBroker_waits by exact Hopen.
  cbn [dispatcher.and_then]. eexists. reflexivity.
Qed.

(** C7, as the code has it.  The guard is in [watchNewTubes], which leaves
    the tubes that are marked alone.  [RunTube] has none, and what follows
    holds whether the tube is marked or not.  On a dispatcher that is not
    shut down a call marks the tube, starts the worker of slot 0 and waits in
    [runBroker] for [bd.ret].  Once that is closed, the call ends in the
    panic of the pump when the pump of the slot is in its send.  With pumps
    that are not, the call gets through its slots, starting [perTube] workers
    again. *)
Theorem RunTube_has_no_guard tube w :
  (forall tubes,
     dispatcher.ListTubes w = (tubes, None) ->
     Forall (fun t => dispatcher.watched (dispatcher.bd w) t = true) tubes ->
     dispatcher.watchNewTubes w = dispatcher.Done None w)
  /\ (dispatcher.ret (dispatcher.bd w) = ChanOpen ->
      1 <= dispatcher.perTube (dispatcher.bd w) ->
      exists w1 k,
        dispatcher.RunTube tube w = dispatcher.AwaitRet w1 k
        /\ dispatcher.frames w1
           = dispatcher.frames w
             ++ [dispatcher.waiting (dispatcher.options (dispatcher.bd w)) tube 0]
        /\ dispatcher.wg (dispatcher.bd w1) = dispatcher.wg (dispatcher.bd w) + 1
        /\ dispatcher.watched (dispatcher.bd w1) tube = true)
  /\ (1 <= dispatcher.perTube (dispatcher.bd w) ->
      dispatcher.sending w (length (dispatcher.frames w)) = true ->
      exists w',
        dispatcher.run_closing (dispatcher.RunTube tube w)
        = dispatcher.Panic "send on closed channel" w'
        /\ dispatcher.frames w'
           = dispatcher.frames w
             ++ [dispatcher.launched (dispatcher.options (dispatcher.bd w)) tube 0]
        /\ dispatcher.wg (dispatcher.bd w') = dispatcher.wg (dispatcher.bd w) + 1)
  /\ ((forall i, dispatcher.sending w i = false) ->
      exists w',
        dispatcher.run_closing (dispatcher.RunTube tube w) = dispatcher.Done tt w'
        /\ dispatcher.frames w'
           = dispatcher.frames w
             ++ (dispatcher.launched (dispatcher.options (dispatcher.bd w)) tube
                   <$> dispatcher.slots (dispatcher.perTube (dispatcher.bd w)))
        /\ dispatcher.wg (dispatcher.bd w')
           = dispatcher.wg (dispatcher.bd w)
             + Z.of_nat
                 (length (dispatcher.slots (dispatcher.perTube (dispatcher.bd w))))
        /\ dispatcher.watched (dispatcher.bd w') tube = true
        /\ (0 <= dispatcher.perTube (dispatcher.bd w) ->
            Z.of_nat (length (dispatcher.slots (dispatcher.perTube (dispatcher.bd w))))
            = dispatcher.perTube (dispatcher.bd w))).
Proof.
  split; [intros tubes; apply watchNewTubes_all_watched|].
  split; [|split].
  - intros Hopen Hp. destruct (RunTube_waits tube w Hopen Hp) as (k & Hrun).
    eexists _, k. split; [exact Hrun|]. cbn.
    split; [reflexivity|]. split; [reflexivity|].
    unfold dispatcher.watched. cbn. now rewrite lookup_insert_eq.
  - apply RunTube_closing_panics.
  - intros Hs. destruct (RunTube_closing tube w Hs) as (w' & Hrun & Hfr & Hwg & Hw).
    exists w'. repeat split; try assumption. apply slots_length.
Qed.

(** A tube that is watched already, on a dispatcher with one worker per
    tube that is not shut down: the discovery pass leaves it alone, and
    [RunTube] starts a second worker for it. *)
Lemma RunTube_has_no_guard_witness :
  let w := dispatcher.world_of (dispatcher.RunTube "default" (example.fresh 1)) in
  dispatcher.watched (dispatcher.bd w) "default" = true
  /\ length (dispatcher.frames w) = 1%nat
  /\ dispatcher.watchNewTubes w = dispatcher.Done None w
  /\ (exists w1 k,
        dispatcher.RunTube "default" w = dispatcher.AwaitRet w1 k
        /\ length (dispatcher.frames w1) = 2%nat)
  /\ exists w',
       dispatcher.run_closing (dispatcher.RunTube "default" w) = dispatcher.Done tt w'
       /\ length (dispatcher.frames w') = 2%nat.
Proof.
  intros w.
  destruct (RunTube_has_no_guard "default" w) as (Hguard & Hwait & _ & Hend).
  split; [reflexivity|]. split; [reflexivity|].
  split; [apply (Hguard ["default"]); [reflexivity|]; repeat constructor|].
  split.
  - destruct (Hwait eq_refl ltac:(vm_compute; discriminate))
      as (w1 & k & Hrun & Hfr & _).
    exists w1, k. split; [exact Hrun|]. rewrite Hfr. reflexivity.
  - destruct (Hend (fun _ => eq_refl)) as (w' & Hrun & Hfr & _).
    exists w'. split; [exact Hrun|]. rewrite Hfr. reflexivity.
Defined.

(** With [perTube] = 1, two calls of [RunTube] for one tube start two
    workers: both calls wait in their first [runBroker], each having started
    a worker; and run one after the other to their ends they leave two
    workers as well. *)
Lemma RunTube_twice_starts_twice :
  (exists w1 k1 w2 k2,
     dispatcher.RunTube "default" (example.fresh 1) = dispatcher.AwaitRet w1 k1
     /\ dispatcher.watched (dispatcher.bd w1) "default" = true
     /\ dispatcher.RunTube "default" w1 = dispatcher.AwaitRet w2 k2
     /\ length (dispatcher.frames w2) = 2%nat
     /\ dispatcher.wg (dispatcher.bd w2) = 2
     /\ dispatcher.perTube (dispatcher.bd w2) = 1)
  /\ length
       (dispatcher.frames
          (dispatcher.world_of
             (dispatcher.run_closing
                (dispatcher.RunTube "default"
                   (dispatcher.world_of
                      (dispatcher.run_closing
                         (dispatcher.RunTube "default" (example.fresh 1))))))))
     = 2%nat.
Proof.
  split.
  - eexists _, _, _, _. split; [reflexivity|]. split; [reflexivity|].
    split; [reflexivity|]. cbn. auto.
  - reflexivity.
Qed.

Lemma Run_waits_for_ticks {Q : Type} `{!bs.Conn Q}
    (Decode : string -> Value * option error) b (w : @World Q) q :
  bs.Dial (Address b) (conn w) = (None, q) ->
  exists w',
    Run Decode b {| tokens := 0; closed := false |} w = Blocks w'
    /\ events w' = events w ++ [EvDial (Address b)].
Proof.
  intros Hdial. unfold Run, defer, bind, call, logf. cbn. rewrite Hdial. cbn.
  eexists. split; reflexivity.
Qed.

(** C8, as the code has it.  [Shutdown] closes [bd.ret] and returns: the
    counter of the wait group and the pacing channels are as before.  It is
    for one use: on a dispatcher that is shut down it panics.  A call of
    [runBroker] that was waiting for [bd.ret] can then go on and close the
    pacing channel of its worker: the process ends in the panic of the pump
    when the pump is in its send, and otherwise the call returns; the worker
    is counted in the wait group all along.  A worker that finds its pacing
    channel closed returns and calls [fin], one that finds it open waits
    without calling it; [fin] is [bd.Done], which takes one off the
    counter. *)
Theorem Shutdown_only_signals {Q : Type} `{!bs.Conn Q}
    (Decode : string -> Value * option error) w :
  (dispatcher.ret (dispatcher.bd w) = ChanOpen ->
   exists w',
     dispatcher.Shutdown w = dispatcher.Done tt w'
     /\ dispatcher.ret (dispatcher.bd w') = ChanClosed
     /\ dispatcher.wg (dispatcher.bd w') = dispatcher.wg (dispatcher.bd w)
     /\ dispatcher.frames w' = dispatcher.frames w)
  /\ (dispatcher.ret (dispatcher.bd w) = ChanClosed ->
      dispatcher.Shutdown w = dispatcher.Panic "close of closed channel" w)
  /\ (forall tube slot,
        dispatcher.ret (dispatcher.bd w) = ChanOpen ->
        exists w1 k w2 w3,
          dispatcher.runBroker tube slot w = dispatcher.AwaitRet w1 k
          /\ dispatcher.wg (dispatcher.bd w1) = dispatcher.wg (dispatcher.bd w) + 1
          /\ dispatcher.Shutdown w1 = dispatcher.Done tt w2
          /\ dispatcher.wg (dispatcher.bd w2) = dispatcher.wg (dispatcher.bd w) + 1
          /\ dispatcher.frames w2
             = dispatcher.frames w
               ++ [dispatcher.waiting (dispatcher.options (dispatcher.bd w)) tube slot]
          /\ dispatcher.resume (dispatcher.AwaitRet w1 k) w2
             = (if dispatcher.sending w (length (dispatcher.frames w))
                then dispatcher.Panic "send on closed channel" w3
                else dispatcher.Done tt w3)
          /\ dispatcher.frames w3
             = dispatcher.frames w
               ++ [dispatcher.launched (dispatcher.options (dispatcher.bd w)) tube slot]
          /\ dispatcher.wg (dispatcher.bd w3) = dispatcher.wg (dispatcher.bd w) + 1)
  /\ (forall (f : dispatcher.Frame) (bw : @World Q) q,
        bs.Dial (Address (dispatcher.worker f)) (conn bw) = (None, q) ->
        exists bw',
          events bw'
          = events bw
            ++ EvDial (Address (dispatcher.worker f))
               :: match dispatcher.ticker f with
                  | ChanClosed => [EvFin]
                  | ChanOpen => []
                  end
          /\ Run Decode (dispatcher.worker f) (dispatcher.ticks f 0) bw
             = match dispatcher.ticker f with
               | ChanClosed => Returns tt bw'
               | ChanOpen => Blocks bw'
               end)
  /\ (0 < dispatcher.wg (dispatcher.bd w) ->
      exists w',
        dispatcher.bd_Done w = dispatcher.Done tt w'
        /\ dispatcher.wg (dispatcher.bd w') = dispatcher.wg (dispatcher.bd w) - 1).
Proof.
  split; [|split; [|split; [|split]]]; cycle 4.
  { intros Hpos. unfold dispatcher.bd_Done.
    apply Z.leb_gt in Hpos. rewrite Hpos.
    eexists. split; [reflexivity|]. cbn. lia. }
  - intros Hopen. unfold dispatcher.Shutdown. rewrite Hopen.
    eexists. split; [reflexivity|]. cbn. auto.
  - intros Hclosed. unfold dispatcher.Shutdown. now rewrite Hclosed.
  - intros tube slot Hopen. rewrite (runBroker_waits tube slot w Hopen).
    eexists _, _, _, _. split; [reflexivity|]. cbn.
    split; [reflexivity|].
    unfold dispatcher.Shutdown. cbn. rewrite Hopen.
    split; [reflexivity|]. cbn. split; [reflexivity|]. split; [reflexivity|].
    unfold dispatcher.with_bd.
    cbn [dispatcher.bd dispatcher.frames dispatcher.ListTubes dispatcher.sending].
    rewrite finish_new_frame by reflexivity.
    split; [destruct (dispatcher.sending w _); reflexivity|]. cbn. auto.
  - intros f bw q Hdial. unfold dispatcher.ticks.
    destruct (dispatcher.ticker f).
    + destruct (Run_waits_for_ticks Decode _ bw q Hdial) as (bw' & Hrun & Hev).
      exists bw'. split; [exact Hev|exact Hrun].
    + destruct (Run_returns_when_ticks_closed Decode _ bw q Hdial)
        as (bw' & Hrun & Hev).
      exists bw'. split; [exact Hev|exact Hrun].
Qed.

(** One tube, one worker per tube: when [Shutdown] returns the worker is
    still counted in the wait group and its pacing channel is still open,
    and a second [Shutdown] panics. *)
Lemma Shutdown_neither_waits_nor_repeats :
  exists w1 k w2,
    dispatcher.RunTube "default" (example.fresh 1) = dispatcher.AwaitRet w1 k
    /\ dispatcher.Shutdown w1 = dispatcher.Done tt w2
    /\ dispatcher.wg (dispatcher.bd w2) = 1
    /\ dispatcher.ticker <$> dispatcher.frames w2 !! 0%nat = Some ChanOpen
    /\ dispatcher.Shutdown w2 = dispatcher.Panic "close of closed channel" w2.
Proof.
  eexists _, _, _. split; [reflexivity|]. split; [reflexivity|]. cbn. auto.
Qed.

(** * Further properties *)

(** ** Package cli *)

Lemma nonempty_true s : cli.nonempty s = true <-> s <> "".
Proof. destruct s; cbn; split; congruence. Qed.

(** The options pass validation exactly when the six paths and names are
    all given; the number of workers, the tube list, the requeue delay and
    the [All] flag are not looked at. *)
Theorem validateOptions_nil_iff o :
  cli.validateOptions o = None
  <-> cli.Address o <> "" /\ cli.PHPBinary o <> "" /\ cli.PHPINI o <> ""
      /\ cli.InstanceRoot o <> "" /\ cli.ClusterRoot o <> ""
      /\ cli.Controller o <> "".
Proof.
  rewrite <- !nonempty_true. unfold cli.validateOptions, cli.require.
  destruct (cli.nonempty (cli.Address o)), (cli.nonempty (cli.PHPBinary o)),
    (cli.nonempty (cli.PHPINI o)), (cli.nonempty (cli.InstanceRoot o)),
    (cli.nonempty (cli.ClusterRoot o)), (cli.nonempty (cli.Controller o));
    cbn; split; intros H; try discriminate; try tauto;
    repeat match goal with H : _ /\ _ |- _ => destruct H end; discriminate.
Qed.

Lemma fold_join_cons sep c rest acc :
  fold_left (fun acc x => acc +:+ sep +:+ x) rest (String c acc)
  = String c (fold_left (fun acc x => acc +:+ sep +:+ x) rest acc).
Proof.
  revert acc. induction rest as [|x rest IH]; intros acc; [reflexivity|].
  cbn. apply IH.
Qed.

Lemma fold_join_empty sep piece rest :
  fold_left (fun acc x => acc +:+ String sep "" +:+ x) (piece :: rest) ""
  = String sep (fold_left (fun acc x => acc +:+ String sep "" +:+ x) rest piece).
Proof. cbn. apply fold_join_cons. Qed.

Lemma Split_not_nil s sep : cli.Split s sep <> [].
Proof.
  destruct s as [|c s]; cbn; [discriminate|].
  case_bool_decide; [discriminate|].
  destruct (cli.Split s sep); discriminate.
Qed.

Lemma Join_Split s sep : cli.Join (cli.Split s sep) (String sep "") = s.
Proof.
  induction s as [|c s IH]; [reflexivity|].
  cbn [cli.Split]. case_bool_decide as Hc.
  - subst c. destruct (cli.Split s sep) as [|piece rest] eqn:Hs.
    + now apply Split_not_nil in Hs.
    + unfold cli.Join in *. rewrite fold_join_empty, IH. reflexivity.
  - destruct (cli.Split s sep) as [|piece rest] eqn:Hs.
    + now apply Split_not_nil in Hs.
    + unfold cli.Join in *. rewrite fold_join_cons, IH. reflexivity.
Qed.

Lemma Split_length s sep :
  length (cli.Split s sep) = S (cli.occurrences sep s).
Proof.
  induction s as [|c s IH]; [reflexivity|].
  cbn [cli.Split cli.occurrences]. case_bool_decide.
  - cbn. now rewrite IH.
  - destruct (cli.Split s sep) as [|piece rest] eqn:Hs.
    + now apply Split_not_nil in Hs.
    + cbn in *. exact IH.
Qed.

Lemma Split_pieces s sep :
  Forall (fun piece => cli.occurrences sep piece = 0%nat) (cli.Split s sep).
Proof.
  induction s as [|c s IH]; [repeat constructor|].
  cbn [cli.Split]. case_bool_decide as Hc.
  - constructor; [reflexivity | exact IH].
  - destruct (cli.Split s sep) as [|piece rest] eqn:Hs.
    + now apply Split_not_nil in Hs.
    + inversion IH as [|? ? Hpiece Hrest]; subst.
      constructor; [|exact Hrest].
      cbn. rewrite bool_decide_eq_false_2 by exact Hc. exact Hpiece.
Qed.

(** [Set] never fails and replaces the list, whatever it held: the new list
    has one tube name more than [value] has commas (so a single empty name
    for an empty [value]), no name contains a comma, and the names joined by
    commas give [value] back. *)
Theorem TubeList_Set_splits t value :
  (cli.TubeList_Set t value).2 = None
  /\ (cli.TubeList_Set t value).1 = (cli.TubeList_Set [] value).1
  /\ length (cli.TubeList_Set t value).1 = S (cli.occurrences "," value)
  /\ Forall (fun name => cli.occurrences "," name = 0%nat) (cli.TubeList_Set t value).1
  /\ cli.Join (cli.TubeList_Set t value).1 "," = value.
Proof.
  unfold cli.TubeList_Set. cbn [fst snd]. rewrite list_fmap_id.
  split; [reflexivity|]. split; [reflexivity|].
  split; [apply Split_length|]. split; [apply Split_pieces|].
  apply Join_Split.
Qed.

Example TubeList_Set_three :
  cli.TubeList_Set ["default"] "one,two,three" = (["one"; "two"; "three"], None).
Proof. reflexivity. Qed.

Example TubeList_Set_trailing_comma :
  cli.TubeList_Set ["default"] "one," = (["one"; ""], None).
Proof. reflexivity. Qed.

(** ** What a pass through the loop can do *)

Lemma count_sublist p (l1 l2 : list Event) :
  l1 `sublist_of` l2 -> (count p l1 <= count p l2)%nat.
Proof.
  unfold count. induction 1 as [|x l1 l2 _ IH|x l1 l2 _ IH]; cbn.
  - lia.
  - destruct (p x); cbn; lia.
  - destruct (p x); cbn; lia.
Qed.

Section Passes.

Context {Q : Type} `{!bs.Conn Q}.
Variable Decode : string -> Value * option error.

Implicit Types (w : @World Q) (job : bs.Job) (b : Broker) (c : cmd.Cmd).
Implicit Types (result : JobResult).

Lemma stdoutReader_events c sel armed result w :
  match stdoutReader c sel armed result w with
  | Returns (BreakLoop _ armed') w' =>
      (armed' = armed /\ events w' = events w)
      \/ (armed = true /\ armed' = false /\ events w' = events w ++ [EvTerminate])
  | Returns (ReturnEarly _ _) w' =>
      armed = true /\ events w' = events w ++ [EvTerminate]
  | Blocks w' =>
      events w' = events w
      \/ (armed = true /\ events w' = events w ++ [EvTerminate])
  | Panics _ _ => False
  end.
Proof.
  revert armed result w.
  induction sel as [|[t|t data|t] sel IH]; intros armed result w; cbn.
  - now left.
  - destruct armed; [|now left].
    unfold bind, cmd_Terminate, act, pure. cbn.
    destruct (cmd.Terminate_err c) as [e|]; [now split|].
    specialize (IH false (set_TimedOut result true) (emit EvTerminate w)).
    destruct (stdoutReader c sel false _ _) as [[r e|r armed'] w'|w'|msg w'];
      cbn in IH.
    + now destruct IH.
    + right. destruct IH as [[-> Hev]|[? _]]; [auto | discriminate].
    + right. destruct IH as [Hev|[? _]]; [auto | discriminate].
    + exact IH.
  - unfold bind, logf.
    specialize (IH armed (set_Stdout result (Stdout result +:+ data))
                  (note Info "stdout: %s" w)).
    destruct (stdoutReader c sel armed _ _) as [[r e|r armed'] w'|w'|msg w'];
      exact IH.
  - now left.
Qed.

Lemma waitLoop_events c sel armed result err w :
  match waitLoop c sel armed result err w with
  | Returns _ w' =>
      events w' = events w ++ [EvTimerStop]
      \/ (armed = true /\ events w' = events w ++ [EvTerminate; EvTimerStop])
  | Blocks w' =>
      events w' = events w
      \/ (armed = true /\ events w' = events w ++ [EvTerminate])
  | Panics _ _ => False
  end.
Proof.
  revert armed result w.
  induction sel as [|[t wr|t] sel IH]; intros armed result w; cbn.
  - now left.
  - now left.
  - destruct armed; [|now left].
    unfold bind, cmd_Terminate, act, pure. cbn.
    specialize (IH false (set_TimedOut result true) (emit EvTerminate w)).
    destruct (waitLoop c sel false _ _ _) as [a w'|w'|msg w']; cbn in IH.
    + right. destruct IH as [Hev|[? _]]; [|discriminate].
      split; [reflexivity|]. rewrite Hev, <- app_assoc. reflexivity.
    + right. destruct IH as [Hev|[? _]]; [auto | discriminate].
    + exact IH.
Qed.

Lemma executeJob_events b job cwd w :
  exists es,
    events (world_of (executeJob b job cwd w)) = events w ++ es
    /\ es `sublist_of`
         supervise_pass b job
           (int64_add (bs.TimeLeft job (conn w)).1.1 ttrMargin) cwd
    /\ forall msg w', executeJob b job cwd w <> Panics msg w'.
Proof.
  rewrite executeJob_unfold.
  destruct (bs.TimeLeft job (conn w)) as [[ttr e] q]. cbn [fst].
  set (D := int64_add ttr ttrMargin). cbn zeta. cbn [events].
  set (c := procs w (spawned w)).
  set (w3 :=
    {| conn := q; ts := ts w; procs := procs w; spawned := S (spawned w);
       events := ((events w ++ [EvTimeLeft (bs.Id job); EvNewTimer D])
                  ++ [EvNewCommand cwd (argv b)])
                 ++ [EvStartWithStdin (bs.Body job)];
       logs := logs w |}).
  assert (Hw3 : events w3
                = events w ++ [EvTimeLeft (bs.Id job); EvNewTimer D;
                               EvNewCommand cwd (argv b);
                               EvStartWithStdin (bs.Body job)]).
  { cbn. rewrite <- !app_assoc. reflexivity. }
  unfold supervise_pass.
  destruct e as [e|].
  { eexists. split; [reflexivity|]. split; [|discriminate].
    do 2 apply sublist_skip. apply sublist_nil_l. }
  destruct (cmd.NewCommand_err c) as [e|].
  { eexists. split; [cbn; rewrite <- app_assoc; reflexivity|].
    split; [|discriminate]. do 3 apply sublist_skip. apply sublist_nil_l. }
  destruct (cmd.StartWithStdin_err c) as [e|].
  { eexists. split; [cbn; rewrite <- !app_assoc; reflexivity|].
    split; [|discriminate]. do 4 apply sublist_skip. apply sublist_nil_l. }
  pose proof (stdoutReader_events c (cmd.drain c) true (attempted job) w3) as Hd.
  destruct (stdoutReader c (cmd.drain c) true (attempted job) w3)
    as [[r e|r armed] w4|w4|msg w4]; [| | |contradiction].
  - destruct Hd as [_ Hev]. eexists.
    split; [cbn; rewrite Hev, Hw3, <- app_assoc; reflexivity|].
    split; [|discriminate]. cbn. do 5 apply sublist_skip. apply sublist_nil_l.
  - pose proof (waitLoop_events c (cmd.wait c) armed r None w4) as Hw.
    destruct (waitLoop c (cmd.wait c) armed r None w4) as [a w5|w5|msg w5];
      [| |contradiction].
    + destruct Hd as [[-> Hev4]|(_ & -> & Hev4)];
        (destruct Hw as [Hev5|[Harmed Hev5]]; [|try discriminate]);
        eexists; (split; [cbn; rewrite Hev5, Hev4, Hw3, <- ?app_assoc; reflexivity|]);
        (split; [|discriminate]); cbn.
      * do 4 apply sublist_skip. apply sublist_cons. apply sublist_skip.
        apply sublist_nil_l.
      * do 6 apply sublist_skip. apply sublist_nil_l.
      * do 6 apply sublist_skip. apply sublist_nil_l.
    + destruct Hd as [[-> Hev4]|(_ & -> & Hev4)];
        (destruct Hw as [Hev5|[Harmed Hev5]]; [|try discriminate]);
        eexists; (split; [cbn; rewrite Hev5, Hev4, Hw3, <- ?app_assoc; reflexivity|]);
        (split; [|discriminate]); cbn.
      * do 4 apply sublist_skip. apply sublist_nil_l.
      * do 5 apply sublist_skip. apply sublist_nil_l.
      * do 5 apply sublist_skip. apply sublist_nil_l.
  - destruct Hd as [Hev|[_ Hev]]; eexists;
      (split; [cbn; rewrite Hev, Hw3, <- ?app_assoc; reflexivity|]);
      (split; [|discriminate]); cbn.
    + do 4 apply sublist_skip. apply sublist_nil_l.
    + do 5 apply sublist_skip. apply sublist_nil_l.
Qed.

Lemma handleResult_events b job result w :
  exists a w' es,
    handleResult b job result w = Returns a w'
    /\ events w' = events w ++ es
    /\ (es = [] \/ resolves job es).
Proof.
  unfold handleResult. destruct (TimedOut result).
  - eexists _, _, []. split; [reflexivity|]. cbn. rewrite app_nil_r. auto.
  - unfold bind at 1, logf at 1. case_bool_decide.
    + unfold bind, logf, job_Delete, call. cbn.
      destruct (bs.Delete job _) as [err q]. cbn.
      eexists _, _, _. split; [reflexivity|]. cbn. split; [reflexivity|].
      right. now left.
    + unfold bind, logf, job_Releases, job_Release, call. cbn.
      destruct (bs.Releases job _) as [[r e] q]. cbn.
      destruct (bs.Release job _ q) as [err q']. cbn.
      eexists _, _, _. split; [reflexivity|]. cbn.
      split; [rewrite <- app_assoc; reflexivity|].
      right. right. eauto.
Qed.

Lemma send_result_events b r w :
  exists w', send_result b r w = Returns tt w' /\ events w' = events w ++ sends b r.
Proof.
  unfold send_result, sends. destruct (results b) as [ch|].
  - eexists. split; reflexivity.
  - eexists. split; [reflexivity|]. now rewrite app_nil_r.
Qed.

Lemma Run_execute_unfold b job w :
  Run_execute Decode b job w
  = match getJobWD Decode (options b) job with
    | (_, Some _) => Returns Return (note Error_ "%v" w)
    | (wd, None) =>
        match executeJob b job wd (note Info "executing job %d in path %s" w) with
        | Returns (_, Some _) w3 => Returns Return (note Error_ "%v" w3)
        | Returns (result, None) w3 =>
            match handleResult b job result w3 with
            | Returns (Some _) w4 => Returns Return (note Error_ "%v" w4)
            | Returns None w4 =>
                match
                  send_result b result
                    (if Error result is Some _
                     then note Warn "result had error: %s" w4 else w4)
                with
                | Returns _ w5 => Returns Continue w5
                | Blocks w5 => Blocks w5
                | Panics msg w5 => Panics msg w5
                end
            | Blocks w4 => Blocks w4
            | Panics msg w4 => Panics msg w4
            end
        | Blocks w3 => Blocks w3
        | Panics msg w3 => Panics msg w3
        end
    end.
Proof.
  unfold Run_execute.
  destruct (getJobWD Decode (options b) job) as [wd [e|]]; [reflexivity|].
  unfold bind at 1, logf at 1. unfold bind at 1.
  destruct (executeJob b job wd _) as [[result [e|]] w3|w3|msg w3]; try reflexivity.
  unfold bind at 1.
  destruct (handleResult b job result w3) as [[e|] w4|w4|msg w4]; try reflexivity.
  unfold bind. destruct (Error result); reflexivity.
Qed.

Lemma Run_execute_events b job w :
  exists es resolve r,
    events (world_of (Run_execute Decode b job w)) = events w ++ es
    /\ resolves job resolve
    /\ es `sublist_of`
         supervise_pass b job
           (int64_add (bs.TimeLeft job (conn w)).1.1 ttrMargin)
           (getJobWD Decode (options b) job).1
         ++ resolve ++ sends b r
    /\ forall msg w', Run_execute Decode b job w <> Panics msg w'.
Proof.
  rewrite Run_execute_unfold.
  destruct (getJobWD Decode (options b) job) as [wd [e|]]; cbn [fst].
  { exists [], [EvDelete (bs.Id job)], (attempted job).
    split; [cbn; now rewrite app_nil_r|]. split; [now left|].
    split; [apply sublist_nil_l | discriminate]. }
  destruct (executeJob_events b job wd (note Info "executing job %d in path %s" w))
    as (es1 & Hev1 & Hsub1 & Hnp).
  cbn [conn note] in Hsub1.
  destruct (executeJob b job wd _) as [[result [e|]] w3|w3|msg w3];
    cbn [world_of] in Hev1; cbn [events note] in Hev1.
  - exists es1, [EvDelete (bs.Id job)], (attempted job).
    split; [exact Hev1|]. split; [now left|].
    split; [now apply sublist_inserts_r | discriminate].
  - destruct (handleResult_events b job result w3) as (a & w4 & es2 & Hh & Hev2 & Hes2).
    rewrite Hh.
    assert (Hsub2 : exists resolve,
              resolves job resolve /\ es2 `sublist_of` resolve).
    { destruct Hes2 as [->|Hres].
      - exists [EvDelete (bs.Id job)]. split; [now left | apply sublist_nil_l].
      - exists es2. split; [exact Hres | reflexivity]. }
    destruct Hsub2 as (resolve & Hres & Hsub2).
    destruct a as [e|].
    { exists (es1 ++ es2), resolve, (attempted job).
      split; [cbn; rewrite Hev2, Hev1, <- app_assoc; reflexivity|].
      split; [exact Hres|]. split; [|discriminate].
      apply sublist_app; [exact Hsub1|]. now apply sublist_inserts_r. }
    set (w4' := if Error result is Some _
                then note Warn "result had error: %s" w4 else w4).
    assert (Hlog : events w4' = events w4).
    { unfold w4'. destruct (Error result); reflexivity. }
    destruct (send_result_events b result w4') as (w5 & Hsend & Hev5).
    rewrite Hsend. cbn [world_of].
    exists (es1 ++ es2 ++ sends b result), resolve, result.
    split; [rewrite Hev5, Hlog, Hev2, Hev1, <- !app_assoc; reflexivity|].
    split; [exact Hres|]. split; [|discriminate].
    apply sublist_app; [exact Hsub1|]. apply sublist_app; [exact Hsub2|reflexivity].
  - exists es1, [EvDelete (bs.Id job)], (attempted job).
    split; [exact Hev1|]. split; [now left|].
    split; [now apply sublist_inserts_r | discriminate].
  - now destruct (Hnp msg w3).
Qed.

Lemma abandoned_sublist b job e :
  abandoned b job e
  `sublist_of` EvRelease (bs.Id job) (cli.RequeueDelay (options b))
               :: sends b (buried job).
Proof.
  unfold abandoned, sends. apply sublist_skip.
  destruct e, (results b); try reflexivity; apply sublist_nil_l.
Qed.

(** Every pass through the loop makes its calls in the order of one of the
    two templates, leaving out those it does not reach. *)
Lemma Run_body_events b w :
  exists job es,
    events (world_of (Run_body Decode b w)) = events w ++ es
    /\ (es `sublist_of` abandon_pass b job
        \/ exists D wd resolve r,
             resolves job resolve
             /\ es `sublist_of` execute_pass b job D wd resolve r).
Proof.
  unfold Run_body. unfold bind at 1, logf at 1. unfold bind at 1.
  unfold MustReserveWithoutTimeout.
  cbn [ts note conn procs spawned events logs].
  destruct (bs.MustReserveWithoutTimeout (ts w)) as [[id body] t1|t1|msg t1];
    [|exists {| bs.Id := 0; bs.Body := "" |}, [];
      (split; [cbn; now rewrite app_nil_r | left; apply sublist_nil_l])..].
  set (job := {| bs.Id := id; bs.Body := body |}).
  exists job.
  unfold bind at 1, job_Timeouts, call.
  cbn [conn]. destruct (bs.Timeouts job (conn w)) as [[t err] q1].
  unfold set_conn, emit. cbn [conn ts procs spawned events logs].
  destruct err as [e|].
  { exists [EvTimeouts id]. split; [reflexivity|]. left.
    unfold abandon_pass. cbn. apply sublist_skip, sublist_nil_l. }
  destruct (TimeoutTries <=? t).
  { unfold bind at 1, logf at 1.
    match goal with |- context [bind _ _ ?w0] =>
      destruct (abandon_release b job
                  "failed to re-queue a timed out job, error: %s" w0)
        as (w' & Hrun & Hev & _) end.
    rewrite Hrun. cbn [world_of]. rewrite Hev. unfold note. cbn [events].
    eexists. split; [rewrite <- app_assoc; reflexivity|]. left.
    unfold abandon_pass. cbn [app]. apply sublist_skip, sublist_cons.
    apply abandoned_sublist. }
  unfold bind at 1, job_Releases, call.
  cbn [conn]. destruct (bs.Releases job q1) as [[r err] q2].
  unfold set_conn, emit. cbn [conn ts procs spawned events logs].
  destruct err as [e|].
  { exists [EvTimeouts id; EvReleases id].
    split; [cbn; rewrite <- app_assoc; reflexivity|]. left.
    unfold abandon_pass. cbn. do 2 apply sublist_skip. apply sublist_nil_l. }
  destruct (ReleaseTries <=? r).
  { unfold bind at 1, logf at 1.
    match goal with |- context [bind _ _ ?w0] =>
      destruct (abandon_release b job
                  "failed to re-queue the job, error: %s" w0)
        as (w' & Hrun & Hev & _) end.
    rewrite Hrun. cbn [world_of]. rewrite Hev. unfold note. cbn [events].
    eexists. split; [rewrite <- !app_assoc; reflexivity|]. left.
    unfold abandon_pass. cbn [app]. do 2 apply sublist_skip.
    apply abandoned_sublist. }
  match goal with |- context [Run_execute Decode b job ?w0] =>
    destruct (Run_execute_events b job w0)
      as (es & resolve & res & Hev & Hres & Hsub & _) end.
  rewrite Hev. cbn [events].
  exists ([EvTimeouts id; EvReleases id] ++ es).
  split; [rewrite <- !app_assoc; reflexivity|]. right.
  eexists _, _, resolve, res. split; [exact Hres|].
  unfold execute_pass. apply sublist_app; [reflexivity | exact Hsub].
Qed.

Lemma count_pass p k b w :
  (forall job, (count p (abandon_pass b job) <= k)%nat) ->
  (forall job D wd resolve r,
     resolves job resolve -> (count p (execute_pass b job D wd resolve r) <= k)%nat) ->
  exists es,
    events (world_of (Run_body Decode b w)) = events w ++ es
    /\ (count p es <= k)%nat.
Proof.
  intros Ha He.
  destruct (Run_body_events b w) as (job & es & Hev & Hshape).
  exists es. split; [exact Hev|].
  destruct Hshape as [Hsub|(D & wd & resolve & r & Hres & Hsub)].
  - etransitivity; [exact (count_sublist p _ _ Hsub) | apply Ha].
  - etransitivity; [exact (count_sublist p _ _ Hsub) | now apply He].
Qed.

(** A pass through the loop changes the job on the server at most once: it
    never deletes and releases the same job, and never releases it twice,
    whatever the server, the payload and the executor do. *)
Theorem Run_body_writes_at_most_once b w :
  exists es,
    events (world_of (Run_body Decode b w)) = events w ++ es
    /\ (count is_write es <= 1)%nat.
Proof.
  apply (count_pass _ 1%nat).
  - intros job. unfold abandon_pass, sends, count.
    destruct (results b); cbn; lia.
  - intros job D wd resolve r [->|[d ->]]; unfold execute_pass, sends, count;
      destruct (results b); cbn; lia.
Qed.

(** A pass through the loop creates at most one executor command. *)
Theorem Run_body_one_command b w :
  exists es,
    events (world_of (Run_body Decode b w)) = events w ++ es
    /\ (count is_command es <= 1)%nat.
Proof.
  apply (count_pass _ 1%nat).
  - intros job. unfold abandon_pass, sends, count.
    destruct (results b); cbn; lia.
  - intros job D wd resolve r [->|[d ->]]; unfold execute_pass, sends, count;
      destruct (results b); cbn; lia.
Qed.

(** A worker made the way [runBroker] makes it, with [nil] for the results
    channel, never sends a result. *)
Theorem Run_body_of_dispatcher_sends_nothing o tube slot w :
  exists es,
    events (world_of (Run_body Decode (New o tube slot None) w)) = events w ++ es
    /\ forall ch r, EvSend ch r ∉ es.
Proof.
  destruct (Run_body_events (New o tube slot None) w) as (job & es & Hev & Hshape).
  exists es. split; [exact Hev|]. intros ch r Hin.
  destruct Hshape as [Hsub|(D & wd & resolve & res & Hres & Hsub)].
  - apply (elem_of_sublist _ _ _ Hin) in Hsub.
    unfold abandon_pass, sends in Hsub. cbn in Hsub.
    repeat (apply elem_of_cons in Hsub as [Hsub|Hsub]; [discriminate|]).
    now apply elem_of_nil in Hsub.
  - apply (elem_of_sublist _ _ _ Hin) in Hsub.
    unfold execute_pass, supervise_pass, sends in Hsub. cbn in Hsub.
    repeat (apply elem_of_cons in Hsub as [Hsub|Hsub]; [discriminate|]).
    rewrite app_nil_r in Hsub.
    destruct Hres as [->|[d ->]];
      repeat (apply elem_of_cons in Hsub as [Hsub|Hsub]; [discriminate|]);
      now apply elem_of_nil in Hsub.
Qed.

Lemma count_app p (l1 l2 : list Event) :
  count p (l1 ++ l2) = (count p l1 + count p l2)%nat.
Proof. unfold count. now rewrite List.filter_app, length_app. Qed.

Lemma Run_body_counts b w :
  exists es,
    events (world_of (Run_body Decode b w)) = events w ++ es
    /\ count is_fin es = 0%nat
    /\ (count is_write es <= 1)%nat
    /\ (count is_command es <= 1)%nat
    /\ count is_dial es = 0%nat.
Proof.
  destruct (count_pass is_fin 0 b w) as (es & Hev & Hfin).
  { intros job. unfold abandon_pass, sends, count. destruct (results b); cbn; lia. }
  { intros job D wd resolve r [->|[d ->]]; unfold execute_pass, sends, count;
      destruct (results b); cbn; lia. }
  destruct (count_pass is_write 1 b w) as (es1 & Hev1 & Hw).
  { intros job. unfold abandon_pass, sends, count. destruct (results b); cbn; lia. }
  { intros job D wd resolve r [->|[d ->]]; unfold execute_pass, sends, count;
      destruct (results b); cbn; lia. }
  destruct (count_pass is_command 1 b w) as (es2 & Hev2 & Hc).
  { intros job. unfold abandon_pass, sends, count. destruct (results b); cbn; lia. }
  { intros job D wd resolve r [->|[d ->]]; unfold execute_pass, sends, count;
      destruct (results b); cbn; lia. }
  destruct (count_pass is_dial 0 b w) as (es3 & Hev3 & Hd).
  { intros job. unfold abandon_pass, sends, count. destruct (results b); cbn; lia. }
  { intros job D wd resolve r [->|[d ->]]; unfold execute_pass, sends, count;
      destruct (results b); cbn; lia. }
  rewrite Hev in Hev1, Hev2, Hev3.
  apply app_inv_head in Hev1, Hev2, Hev3. subst es1 es2 es3.
  exists es. repeat split; [exact Hev | lia | exact Hw | exact Hc | lia].
Qed.

Lemma Run_loop_counts b n closed w :
  exists es,
    events (world_of (Run_loop Decode b n closed w)) = events w ++ es
    /\ count is_fin es = 0%nat
    /\ (count is_write es <= n)%nat
    /\ (count is_command es <= n)%nat
    /\ count is_dial es = 0%nat.
Proof.
  revert w. induction n as [|n IH]; intros w.
  - exists []. cbn. destruct closed; cbn; rewrite app_nil_r; repeat split; lia.
  - cbn [Run_loop]. unfold bind at 1.
    destruct (Run_body_counts b w) as (es1 & Hev1 & Hfin1 & Hw1 & Hc1 & Hd1).
    destruct (Run_body Decode b w) as [[|] w1|w1|msg w1]; cbn [world_of] in Hev1.
    + destruct (IH w1) as (es2 & Hev2 & Hfin2 & Hw2 & Hc2 & Hd2).
      exists (es1 ++ es2). rewrite Hev2, Hev1, <- app_assoc, !count_app.
      repeat split; lia.
    + exists es1. cbn. repeat split; [exact Hev1 | exact Hfin1 | lia | lia | exact Hd1].
    + exists es1. cbn. repeat split; [exact Hev1 | exact Hfin1 | lia | lia | exact Hd1].
    + exists es1. cbn. repeat split; [exact Hev1 | exact Hfin1 | lia | lia | exact Hd1].
Qed.

Lemma Run_unfold b ticks w :
  Run Decode b ticks w
  = let '(err, q) := bs.Dial (Address b) (conn w) in
    let w1 :=
      {| conn := q; ts := ts w; procs := procs w; spawned := spawned w;
         events := events w ++ [EvDial (Address b)];
         logs := logs w ++ [(Debug, "connecting to address: %s")] |} in
    match err with
    | Some _ => Returns tt (emit EvFin (note Error_ "%v" w1))
    | None =>
        match Run_loop Decode b (tokens ticks) (closed ticks)
                (note Info "watching tube %s" w1) with
        | Returns a w' => Returns a (emit EvFin w')
        | Blocks w' => Blocks w'
        | Panics msg w' => Panics msg (emit EvFin w')
        end
    end.
Proof.
  unfold Run, defer, bind, call, logf. cbn.
  destruct (bs.Dial (Address b) (conn w)) as [[e|] q]; reflexivity.
Qed.

(** [Run] calls [fin] once, as its last step, when it returns and when it
    panics, and not while it waits; it dials once, as its first step, and
    never again: what it does in between has neither a call of [fin] nor a
    dial. *)
Theorem Run_calls_fin_once b ticks w :
  match Run Decode b ticks w with
  | Returns _ w' | Panics _ w' =>
      exists es,
        events w' = events w ++ EvDial (Address b) :: es ++ [EvFin]
        /\ count is_fin es = 0%nat
        /\ count is_dial es = 0%nat
  | Blocks w' =>
      exists es,
        events w' = events w ++ EvDial (Address b) :: es
        /\ count is_fin es = 0%nat
        /\ count is_dial es = 0%nat
  end.
Proof.
  rewrite Run_unfold.
  destruct (bs.Dial (Address b) (conn w)) as [[e|] q].
  { exists []. cbn. rewrite <- app_assoc. auto. }
  cbn zeta.
  match goal with |- context [Run_loop Decode b _ _ ?w0] =>
    destruct (Run_loop_counts b (tokens ticks) (closed ticks) w0)
      as (es & Hev & Hfin & _ & _ & Hdial) end.
  cbn [note events] in Hev.
  destruct (Run_loop Decode b _ _ _) as [a w'|w'|msg w']; cbn [world_of] in Hev;
    exists es; (split; [|split; [exact Hfin|exact Hdial]]); cbn;
    rewrite Hev, <- ?app_assoc; reflexivity.
Qed.

(** A worker that is given [n] ticks changes at most [n] jobs on the server
    and creates at most [n] executor commands. *)
Theorem Run_paced_by_ticks b ticks w :
  exists es,
    events (world_of (Run Decode b ticks w)) = events w ++ es
    /\ (count is_write es <= tokens ticks)%nat
    /\ (count is_command es <= tokens ticks)%nat.
Proof.
  rewrite Run_unfold.
  destruct (bs.Dial (Address b) (conn w)) as [[e|] q].
  { eexists. split; [cbn; rewrite <- app_assoc; reflexivity|]. cbn. lia. }
  cbn zeta.
  match goal with |- context [Run_loop Decode b _ _ ?w0] =>
    destruct (Run_loop_counts b (tokens ticks) (closed ticks) w0)
      as (es & Hev & _ & Hw & Hc & _) end.
  cbn [note events] in Hev.
  destruct (Run_loop Decode b _ _ _) as [a w'|w'|msg w']; cbn [world_of] in Hev;
    eexists; (split; [cbn; rewrite Hev, <- ?app_assoc; reflexivity|]);
    rewrite ?count_app; cbn; lia.
Qed.

End Passes.

(** ** What the supervisor returns *)

Lemma string_app_assoc (s1 s2 s3 : string) : (s1 +:+ s2) +:+ s3 = s1 +:+ (s2 +:+ s3).
Proof.
  induction s1 as [|c s1 IH]; [reflexivity|].
  change (String c ((s1 +:+ s2) +:+ s3) = String c (s1 +:+ (s2 +:+ s3))).
  now rewrite IH.
Qed.

Lemma string_app_empty_r (s : string) : s +:+ "" = s.
Proof.
  induction s as [|c s IH]; [reflexivity|].
  change (String c (s +:+ "") = String c s). now rewrite IH.
Qed.

Section Returned.

Context {Q : Type} `{!bs.Conn Q}.

Implicit Types (w : @World Q) (job : bs.Job) (b : Broker) (c : cmd.Cmd).
Implicit Types (result : JobResult).

Lemma stdoutReader_output c sel armed result w d w' :
  stdoutReader c sel armed result w = Returns d w' ->
  match d with
  | BreakLoop r _ =>
      Stdout r = Stdout result +:+ cmd.output sel
      /\ ExitStatus r = ExitStatus result
  | ReturnEarly _ err => err = cmd.Terminate_err c /\ err <> None
  end.
Proof.
  revert armed result w.
  induction sel as [|[t|t data|t] sel IH]; intros armed result w Hrun; cbn in Hrun.
  - discriminate.
  - destruct armed; [|discriminate].
    unfold bind, cmd_Terminate, act, pure in Hrun. cbn in Hrun.
    destruct (cmd.Terminate_err c) as [e|] eqn:Hterm.
    + injection Hrun as <- <-. split; [reflexivity | discriminate].
    + apply IH in Hrun. destruct d; [|exact Hrun].
      now rewrite <- Hterm.
  - unfold bind, logf in Hrun. cbn in Hrun. apply IH in Hrun.
    destruct d; [exact Hrun|]. destruct Hrun as [Hout Hst].
    split; [|exact Hst]. rewrite Hout. cbn [Stdout set_Stdout cmd.output].
    apply string_app_assoc.
  - injection Hrun as <- <-. cbn. now rewrite string_app_empty_r.
Qed.

Lemma waitLoop_status c sel armed result w r err w' :
  waitLoop c sel armed result None w = Returns (r, err) w' ->
  err = None
  /\ Stdout r = Stdout result
  /\ exists wr, cmd.exit_result sel = Some wr /\ ExitStatus r = cmd.Status wr.
Proof.
  revert armed result w.
  induction sel as [|[t wr|t] sel IH]; intros armed result w Hrun; cbn in Hrun.
  - discriminate.
  - unfold bind, act, pure in Hrun. cbn in Hrun. injection Hrun as <- <- <-.
    split; [now destruct (cmd.Err wr)|]. split; [reflexivity|].
    exists wr. auto.
  - destruct armed; [|discriminate].
    unfold bind, cmd_Terminate, act, pure in Hrun. cbn in Hrun.
    apply IH in Hrun. exact Hrun.
Qed.

(** When [executeJob] returns without an error, the result holds all the
    output that arrived before the output channel closed, in order, and the
    exit status that the wait delivered. *)
Theorem executeJob_collects b job cwd w r w' :
  executeJob b job cwd w = Returns (r, None) w' ->
  Stdout r = cmd.output (cmd.drain (procs w (spawned w)))
  /\ exists wr,
       cmd.exit_result (cmd.wait (procs w (spawned w))) = Some wr
       /\ ExitStatus r = cmd.Status wr.
Proof.
  rewrite executeJob_unfold.
  destruct (bs.TimeLeft job (conn w)) as [[ttr e] q]. cbn zeta.
  destruct e as [e|]; [discriminate|].
  destruct (cmd.NewCommand_err _) as [e|]; [discriminate|].
  destruct (cmd.StartWithStdin_err _) as [e|]; [discriminate|].
  destruct (stdoutReader _ _ _ _ _) as [d w4| |] eqn:Hdrain; try discriminate.
  apply stdoutReader_output in Hdrain.
  destruct d as [r0 e|r0 armed].
  - intros Hrun. injection Hrun as -> -> ->. now destruct Hdrain.
  - intros Hrun. apply waitLoop_status in Hrun.
    destruct Hdrain as (Hout & _). destruct Hrun as (_ & Hout' & Hst).
    split; [now rewrite Hout', Hout | exact Hst].
Qed.

(** An error that [executeJob] returns is the error of the time-left query,
    of the construction or the start of the command, or of [Terminate] in the
    drain loop.  The error that the wait reports is not returned. *)
Theorem executeJob_error_origin b job cwd w r e w' :
  executeJob b job cwd w = Returns (r, Some e) w' ->
  (bs.TimeLeft job (conn w)).1.2 = Some e
  \/ cmd.NewCommand_err (procs w (spawned w)) = Some e
  \/ cmd.StartWithStdin_err (procs w (spawned w)) = Some e
  \/ cmd.Terminate_err (procs w (spawned w)) = Some e.
Proof.
  rewrite executeJob_unfold.
  destruct (bs.TimeLeft job (conn w)) as [[ttr e0] q]. cbn zeta. cbn [fst snd].
  destruct e0 as [e0|]; [intros Hrun; injection Hrun as _ -> _; auto|].
  destruct (cmd.NewCommand_err _) as [e0|];
    [intros Hrun; injection Hrun as _ -> _; auto|].
  destruct (cmd.StartWithStdin_err _) as [e0|];
    [intros Hrun; injection Hrun as _ -> _; auto|].
  destruct (stdoutReader _ _ _ _ _) as [d w4| |] eqn:Hdrain; try discriminate.
  apply stdoutReader_output in Hdrain.
  destruct d as [r0 e0|r0 armed].
  - intros Hrun. injection Hrun as _ -> _. destruct Hdrain as [-> _]. auto.
  - intros Hrun. apply waitLoop_status in Hrun. now destruct Hrun.
Qed.

End Returned.

Lemma executeJob_collects_witness :
  exists r w',
    executeJob (example.worker None) example.job7 "/var/www/html/acme/worker"
      (example.world (example.server 0 0) [] (example.quick 3 4))
    = Returns (r, None) w'
    /\ Stdout r = "ok"
    /\ ExitStatus r = 4.
Proof.
  eexists _, _.
  match goal with |- ?A /\ _ => assert (Hrun : A) by (vm_compute; reflexivity) end.
  split; [exact Hrun|].
  destruct (executeJob_collects _ _ _ _ _ _ Hrun) as (Hout & wr & Hwr & Hst).
  split; [exact Hout|]. injection Hwr as <-. exact Hst.
Defined.

Lemma executeJob_error_origin_witness :
  cmd.NewCommand_err example.missing
  = Some (errors_New "chdir: no such file or directory").
Proof.
  assert (Hrun :
    executeJob (example.worker None) example.job7 "/nowhere"
      (example.world (example.server 0 0) [] example.missing)
    = Returns (attempted example.job7,
               Some (errors_New "chdir: no such file or directory"))
        {| conn := example.server 0 0;
           ts := {| bs.answers := []; bs.steps := [] |};
           procs := fun _ => example.missing; spawned := 1;
           events := [EvTimeLeft 7; EvNewTimer (6 * Second);
                      EvNewCommand "/nowhere" (argv (example.worker None))];
           logs := [] |}) by reflexivity.
  destruct (executeJob_error_origin _ _ _ _ _ _ _ Hrun) as [H|[H|[H|H]]];
    [discriminate H | exact H | discriminate H | discriminate H].
Defined.

(** ** After the execution *)

Section AfterExecution.

Context {Q : Type} `{!bs.Conn Q}.
Variable Decode : string -> Value * option error.

Implicit Types (w : @World Q) (job : bs.Job) (b : Broker).
Implicit Types (result : JobResult).

(** Once [executeJob] has returned a result without an error, the pass
    sends the result and continues in every case but one: when the exit
    status is 0 and [Delete] fails, [Run] returns and nothing is sent.  A
    [Release] that fails after another exit status goes unnoticed, and a
    run that timed out is sent without any call for the job. *)
Theorem Run_execute_after_execution b job w wd result w3 :
  getJobWD Decode (options b) job = (wd, None) ->
  executeJob b job wd (note Info "executing job %d in path %s" w)
  = Returns (result, None) w3 ->
  exists ctl w',
    Run_execute Decode b job w = Returns ctl w'
    /\ if TimedOut result then
         ctl = Continue /\ events w' = events w3 ++ sends b result
       else if bool_decide (ExitStatus result = 0) then
         match (bs.Delete job (conn w3)).1 with
         | None =>
             ctl = Continue
             /\ events w' = events w3 ++ EvDelete (bs.Id job) :: sends b result
         | Some _ =>
             ctl = Return /\ events w' = events w3 ++ [EvDelete (bs.Id job)]
         end
       else
         ctl = Continue
         /\ exists d,
              events w'
              = events w3
                ++ EvReleases (bs.Id job) :: EvRelease (bs.Id job) d
                   :: sends b result.
Proof.
  intros Hwd Hexec. rewrite Run_execute_unfold, Hwd, Hexec.
  assert (Hsend : forall w4,
    exists w5,
      send_result b result
        (if Error result is Some _
         then note Warn "result had error: %s" w4 else w4)
      = Returns tt w5
      /\ events w5 = events w4 ++ sends b result).
  { intros w4.
    destruct (send_result_events b result
                (if Error result is Some _
                 then note Warn "result had error: %s" w4 else w4))
      as (w5 & Hs & Hev).
    exists w5. split; [exact Hs|]. rewrite Hev. now destruct (Error result). }
  destruct (TimedOut result) eqn:Hto.
  - rewrite handleResult_timed_out by exact Hto.
    match goal with |- context [note Warn "result had error: %s" ?w4] =>
      destruct (Hsend w4) as (w5 & -> & Hev) end.
    exists Continue, w5. split; [reflexivity|]. split; [reflexivity | exact Hev].
  - case_bool_decide as Hst.
    + destruct (handleResult_exit_0 b job result w3 Hto Hst)
        as (w4 & -> & _ & Hev4).
      destruct (bs.Delete job (conn w3)).1 as [e|].
      * exists Return, (note Error_ "%v" w4). split; [reflexivity|].
        split; [reflexivity | exact Hev4].
      * destruct (Hsend w4) as (w5 & -> & Hev).
        exists Continue, w5. split; [reflexivity|]. split; [reflexivity|].
        rewrite Hev, Hev4, <- app_assoc. reflexivity.
    + destruct (bs.Releases job (conn w3)) as [[r e] q] eqn:Hr.
      destruct (handleResult_exit_nonzero b job result w3 r e q Hto Hst Hr)
        as (w4 & -> & _ & Hev4).
      destruct (Hsend w4) as (w5 & -> & Hev).
      exists Continue, w5. split; [reflexivity|]. split; [reflexivity|].
      eexists. rewrite Hev, Hev4, <- app_assoc. reflexivity.
Qed.

(** When a counter of the reserved job cannot be read, [Run] returns: the
    job is neither executed nor released. *)
Theorem Run_body_counter_error b w id body t1 :
  bs.MustReserveWithoutTimeout (ts w) = Returns (id, body) t1 ->
  let job := {| bs.Id := id; bs.Body := body |} in
  (forall t e q1,
     bs.Timeouts job (conn w) = ((t, Some e), q1) ->
     exists w',
       Run_body Decode b w = Returns Return w'
       /\ events w' = events w ++ [EvTimeouts id])
  /\ (forall t q1 r e q2,
        bs.Timeouts job (conn w) = ((t, None), q1) ->
        t < TimeoutTries ->
        bs.Releases job q1 = ((r, Some e), q2) ->
        exists w',
          Run_body Decode b w = Returns Return w'
          /\ events w' = events w ++ [EvTimeouts id; EvReleases id]).
Proof.
  intros Hres job. split.
  - intros t e q1 Ht.
    unfold Run_body, bind at 1 2 3, logf at 1. cbn.
    rewrite (reserve_returns _ id body t1) by exact Hres. cbn.
    unfold job_Timeouts, call. cbn. fold job. rewrite Ht.
    eexists. split; [reflexivity|]. reflexivity.
  - intros t q1 r e q2 Ht Hlt Hr.
    unfold Run_body, bind at 1 2 3, logf at 1. cbn.
    rewrite (reserve_returns _ id body t1) by exact Hres. cbn.
    unfold job_Timeouts, call. cbn. fold job. rewrite Ht. cbn.
    apply Z.leb_gt in Hlt. rewrite Hlt.
    unfold bind at 1, job_Releases, call. cbn. fold job. rewrite Hr.
    eexists. split; [reflexivity|]. cbn. rewrite <- app_assoc. reflexivity.
Qed.

End AfterExecution.

Lemma Run_execute_after_execution_witness :
  exists w',
    Run_execute example.decode (example.worker (Some 0%nat)) example.job7
      (example.world (example.server 0 0) [] (example.quick 3 0))
    = Returns Continue w'
    /\ count is_write (events w') = 1%nat
    /\ last (events w')
       = Some (EvSend 0 (set_ExitStatus (set_Stdout (attempted example.job7) "ok") 0)).
Proof.
  eassert (Hexec :
    executeJob (example.worker (Some 0%nat)) example.job7 "/var/www/html/acme/worker"
      (note Info "executing job %d in path %s"
         (example.world (example.server 0 0) [] (example.quick 3 0)))
    = Returns (?[r], None) ?[w3]) by (vm_compute; reflexivity).
  destruct (Run_execute_after_execution example.decode (example.worker (Some 0%nat))
              example.job7 _ _ _ _ eq_refl Hexec) as (ctl & w' & Hrun & Hshape).
  cbn in Hshape. destruct Hshape as (-> & Hev).
  exists w'. split; [exact Hrun|]. rewrite Hev. split; reflexivity.
Defined.

Lemma Run_body_counter_error_witness :
  exists w',
    Run_body example.decode (example.worker None)
      (example.world example.offline [bs.Reserved 7 "payload"] (example.quick 3 0))
    = Returns Return w'
    /\ events w' = [EvTimeouts 7].
Proof.
  destruct (@Run_body_counter_error _ example.server_conn example.decode
              (example.worker None)
              (example.world example.offline [bs.Reserved 7 "payload"]
                 (example.quick 3 0))
              7 "payload" {| bs.answers := []; bs.steps := [] |} eq_refl) as (H & _).
  exact (H 0 example.eof example.offline eq_refl).
Defined.

(** ** More on the routing key *)

(** The two ways in which the lookup of the routing key fails are told
    apart, whatever the order in which the map is visited: a "domain" key
    with a value that is not a string, and no "domain" key at all.  Keys that
    are not strings are passed over. *)
Theorem findDomain_error_messages m :
  NoDup m.*1 ->
  (forall v,
     (VString "domain", v) ∈ m -> (forall d, v <> VString d) ->
     findDomain m = ("", Some (errors_New "value of domain key is not a string")))
  /\ ((forall v, (VString "domain", v) ∉ m) ->
      findDomain m
      = ("", Some (errors_New "failed to find domain key in job packet"))).
Proof.
  induction m as [|[k v0] m IH]; intros Hnd.
  - split; [intros v Hin; now apply elem_of_nil in Hin | reflexivity].
  - cbn in Hnd. apply NoDup_cons in Hnd as [Hk Hnd].
    destruct (IH Hnd) as [IH1 IH2]. split.
    + intros v Hin Hv. apply elem_of_cons in Hin as [Heq | Hin].
      * injection Heq as <- <-. cbn.
        rewrite bool_decide_eq_true_2 by reflexivity.
        destruct v; try reflexivity. now destruct (Hv s).
      * cbn. destruct k; try (now apply IH1 with v).
        case_bool_decide as Hs; [|now apply IH1 with v].
        subst s. exfalso. apply Hk.
        apply list_elem_of_fmap. now exists (VString "domain", v).
    + intros Hno.
      assert (Hm : forall v, (VString "domain", v) ∉ m).
      { intros v Hin. apply (Hno v). apply elem_of_cons. now right. }
      cbn. destruct k; try (now apply IH2).
      case_bool_decide as Hs; [|now apply IH2].
      subst s. exfalso. apply (Hno v0). apply elem_of_cons. now left.
Qed.

Lemma findDomain_error_messages_witness :
  findDomain [(VInt 1, VString "x"); (VString "domain", VInt 3)]
  = ("", Some (errors_New "value of domain key is not a string")).
Proof.
  assert (Hnd : NoDup [(VInt 1, VString "x"); (VString "domain", VInt 3)].*1).
  { cbn. apply NoDup_cons. split; [|apply NoDup_singleton].
    intros Hin. apply list_elem_of_singleton in Hin. discriminate Hin. }
  destruct (findDomain_error_messages _ Hnd) as (H & _).
  apply (H (VInt 3)).
  - apply elem_of_cons. right. apply elem_of_cons. now left.
  - intros d. discriminate.
Defined.

(** ** The back-off schedule *)

(** Over the ten retries that the release check allows, the delay starts at
    zero, the last one is 1h49m21s and together they take 4h15m33s, as the
    comment in [handleResult] says. *)
Theorem backoff_schedule :
  backoff 0 = 0
  /\ backoff (ReleaseTries - 1) = 1 * Hour + 49 * Minute + 21 * Second
  /\ foldr Z.add 0 (backoff <$> (Z.of_nat <$> seq 0 (Z.to_nat ReleaseTries)))
     = 4 * Hour + 15 * Minute + 33 * Second.
Proof. repeat split; vm_compute; reflexivity. Qed.

(** ** More on the reserve adapter *)

(** When [Reserve] fails with an error that is not a [ConnError], the type
    assertion of the adapter panics, after the connection errors before it
    have been absorbed. *)
Theorem MustReserveWithoutTimeout_panics failures e rest st :
  (forall op err, e <> ConnError op err) ->
  bs.MustReserveWithoutTimeout
    {| bs.answers := (bs.failed <$> failures) ++ bs.ReserveFailed e :: rest;
       bs.steps := st |}
  = Panics "interface conversion: error is not beanstalk.ConnError"
      {| bs.answers := rest; bs.steps := st ++ (bs.retry <$> failures) |}.
Proof.
  intros He. unfold bs.MustReserveWithoutTimeout. cbn.
  rewrite MustReserveWithoutTimeout_loop_failures.
  destruct e as [msg|op err|f a|f a]; try reflexivity.
  now destruct (He op err).
Qed.

Lemma MustReserveWithoutTimeout_panics_witness :
  bs.MustReserveWithoutTimeout
    {| bs.answers := [bs.ReserveFailed (ConnError "reserve-with-timeout" ErrTimeout);
                      bs.ReserveFailed (errors_New "name: empty");
                      bs.Reserved 7 "payload"];
       bs.steps := [] |}
  = Panics "interface conversion: error is not beanstalk.ConnError"
      {| bs.answers := [bs.Reserved 7 "payload"]; bs.steps := [bs.RetryNow] |}.
Proof.
  apply (MustReserveWithoutTimeout_panics [("reserve-with-timeout", ErrTimeout)]
           (errors_New "name: empty") [bs.Reserved 7 "payload"] []).
  intros op err. discriminate.
Defined.

(** ** More on the dispatcher *)

Lemma for_each_runBroker_keeps tube l w :
  (forall i, dispatcher.sending w i = false) ->
  exists w',
    dispatcher.run_closing (dispatcher.for_each l (dispatcher.runBroker tube) w)
    = dispatcher.Done tt w'
    /\ dispatcher.frames w'
       = dispatcher.frames w
         ++ (dispatcher.launched (dispatcher.options (dispatcher.bd w)) tube <$> l)
    /\ dispatcher.wg (dispatcher.bd w')
       = dispatcher.wg (dispatcher.bd w) + Z.of_nat (length l)
    /\ dispatcher.tubeSet (dispatcher.bd w') = dispatcher.tubeSet (dispatcher.bd w)
    /\ dispatcher.options (dispatcher.bd w') = dispatcher.options (dispatcher.bd w)
    /\ dispatcher.perTube (dispatcher.bd w') = dispatcher.perTube (dispatcher.bd w)
    /\ dispatcher.ListTubes w' = dispatcher.ListTubes w
    /\ dispatcher.sending w' = dispatcher.sending w.
Proof.
  revert w. induction l as [|slot l IH]; intros w Hs.
  - exists w. cbn. rewrite app_nil_r. repeat split; lia.
  - cbn [dispatcher.for_each]. unfold dispatcher.bind.
    rewrite run_closing_and_then, runBroker_closing, Hs.
    match goal with |- context [dispatcher.for_each l _ ?w1] =>
      destruct (IH w1 Hs) as (w' & Hrun & Hfr & Hwg & Hts & Hop & Hpt & Hlt & Hsd) end.
    exists w'. cbn in Hfr, Hwg, Hts, Hop, Hpt, Hlt, Hsd.
    split; [exact Hrun|]. repeat split.
    + rewrite Hfr, fmap_cons, <- app_assoc. reflexivity.
    + rewrite Hwg. cbn [length]. lia.
    + exact Hts.
    + exact Hop.
    + exact Hpt.
    + exact Hlt.
    + exact Hsd.
Qed.

Lemma RunTube_keeps tube w :
  (forall i, dispatcher.sending w i = false) ->
  exists w',
    dispatcher.run_closing (dispatcher.RunTube tube w) = dispatcher.Done tt w'
    /\ dispatcher.frames w'
       = dispatcher.frames w
         ++ (dispatcher.launched (dispatcher.options (dispatcher.bd w)) tube
               <$> dispatcher.slots (dispatcher.perTube (dispatcher.bd w)))
    /\ dispatcher.wg (dispatcher.bd w')
       = dispatcher.wg (dispatcher.bd w)
         + Z.of_nat (length (dispatcher.slots (dispatcher.perTube (dispatcher.bd w))))
    /\ dispatcher.tubeSet (dispatcher.bd w')
       = <[tube := true]> (dispatcher.tubeSet (dispatcher.bd w))
    /\ dispatcher.options (dispatcher.bd w') = dispatcher.options (dispatcher.bd w)
    /\ dispatcher.perTube (dispatcher.bd w') = dispatcher.perTube (dispatcher.bd w)
    /\ dispatcher.ListTubes w' = dispatcher.ListTubes w
    /\ dispatcher.sending w' = dispatcher.sending w.
Proof.
  intros Hs. unfold dispatcher.RunTube, dispatcher.bind. cbn.
  destruct (for_each_runBroker_keeps tube
              (dispatcher.slots (dispatcher.perTube (dispatcher.bd w)))
              (dispatcher.with_bd (dispatcher.mark tube) w) Hs)
    as (w' & Hrun & Hfr & Hwg & Hts & Hop & Hpt & Hlt & Hsd).
  exists w'. cbn in Hfr, Hwg, Hts, Hop, Hpt, Hlt, Hsd. auto 10.
Qed.

Lemma watched_insert d tube t b0 :
  dispatcher.tubeSet d = <[tube := true]> b0 ->
  default false (b0 !! t) = true ->
  dispatcher.watched d t = true.
Proof.
  intros Hts Ht. unfold dispatcher.watched. rewrite Hts.
  destruct (decide (tube = t)) as [->|Hne].
  - now rewrite lookup_insert_eq.
  - now rewrite lookup_insert_ne.
Qed.

(** Let run to its end with pumps that are not caught in their send when
    their pacing channel is closed, [RunTubes] starts [perTube] workers for
    every entry of the list, in the order of the list and of the slots, a
    tube that is named twice getting them twice; all the tubes end up
    marked. *)
Theorem RunTubes_starts_all tubes w :
  (forall i, dispatcher.sending w i = false) ->
  exists w',
    dispatcher.run_closing (dispatcher.RunTubes tubes w) = dispatcher.Done tt w'
    /\ dispatcher.frames w'
       = dispatcher.frames w
         ++ (tubes ≫= fun tube =>
               dispatcher.launched (dispatcher.options (dispatcher.bd w)) tube
                 <$> dispatcher.slots (dispatcher.perTube (dispatcher.bd w)))
    /\ dispatcher.wg (dispatcher.bd w')
       = dispatcher.wg (dispatcher.bd w)
         + Z.of_nat (length tubes)
           * Z.of_nat (length (dispatcher.slots (dispatcher.perTube (dispatcher.bd w))))
    /\ Forall (fun tube => dispatcher.watched (dispatcher.bd w') tube = true) tubes.
Proof.
  intros Hs. unfold dispatcher.RunTubes.
  enough (Hgen : exists w',
    dispatcher.run_closing (dispatcher.for_each tubes dispatcher.RunTube w)
    = dispatcher.Done tt w'
    /\ dispatcher.frames w'
       = dispatcher.frames w
         ++ (tubes ≫= fun tube =>
               dispatcher.launched (dispatcher.options (dispatcher.bd w)) tube
                 <$> dispatcher.slots (dispatcher.perTube (dispatcher.bd w)))
    /\ dispatcher.wg (dispatcher.bd w')
       = dispatcher.wg (dispatcher.bd w)
         + Z.of_nat (length tubes)
           * Z.of_nat (length (dispatcher.slots (dispatcher.perTube (dispatcher.bd w))))
    /\ Forall (fun tube => dispatcher.watched (dispatcher.bd w') tube = true) tubes
    /\ (forall t, dispatcher.watched (dispatcher.bd w) t = true ->
                  dispatcher.watched (dispatcher.bd w') t = true)
    /\ dispatcher.options (dispatcher.bd w') = dispatcher.options (dispatcher.bd w)
    /\ dispatcher.perTube (dispatcher.bd w') = dispatcher.perTube (dispatcher.bd w)).
  { destruct Hgen as (w' & H1 & H2 & H3 & H4 & _). eauto. }
  revert w Hs. induction tubes as [|tube tubes IH]; intros w Hs.
  - exists w. cbn. rewrite app_nil_r. repeat split; auto; lia.
  - cbn [dispatcher.for_each]. unfold dispatcher.bind.
    rewrite run_closing_and_then.
    destruct (RunTube_keeps tube w Hs)
      as (w1 & -> & Hfr1 & Hwg1 & Hts1 & Hop1 & Hpt1 & _ & Hsd1).
    destruct (IH w1) as (w' & Hrun & Hfr & Hwg & Hall & Hmono & Hop & Hpt).
    { intros i. rewrite Hsd1. apply Hs. }
    exists w'. split; [exact Hrun|].
    rewrite Hop1, Hpt1 in Hfr. rewrite Hpt1 in Hwg.
    split; [rewrite Hfr, Hfr1, bind_cons, <- app_assoc; reflexivity|].
    split; [rewrite Hwg, Hwg1; cbn [length]; lia|].
    split; [|split; [|split]].
    + constructor; [|exact Hall]. apply Hmono.
      unfold dispatcher.watched. now rewrite Hts1, lookup_insert_eq.
    + intros t Ht. apply Hmono. now apply (watched_insert _ tube t _ Hts1).
    + congruence.
    + congruence.
Qed.

(** On a dispatcher that is not shut down, with at least one worker per
    tube, [RunTubes] waits in the first slot of its first tube: one worker is
    started, the first tube is marked, and the other slots and tubes are not
    reached before [bd.ret] is closed. *)
Theorem RunTubes_waits_in_first_slot tube rest w :
  dispatcher.ret (dispatcher.bd w) = ChanOpen ->
  1 <= dispatcher.perTube (dispatcher.bd w) ->
  exists w1 k,
    dispatcher.RunTubes (tube :: rest) w = dispatcher.AwaitRet w1 k
    /\ dispatcher.frames w1
       = dispatcher.frames w
         ++ [dispatcher.waiting (dispatcher.options (dispatcher.bd w)) tube 0]
    /\ dispatcher.wg (dispatcher.bd w1) = dispatcher.wg (dispatcher.bd w) + 1
    /\ dispatcher.tubeSet (dispatcher.bd w1)
       = <[tube := true]> (dispatcher.tubeSet (dispatcher.bd w))
    /\ dispatcher.ret (dispatcher.bd w1) = ChanOpen.
Proof.
  intros Hopen Hp. destruct (slots_first _ Hp) as (slots' & Hslots).
  unfold dispatcher.RunTubes. cbn [dispatcher.for_each].
  unfold dispatcher.bind at 1. unfold dispatcher.RunTube, dispatcher.bind at 1.
  cbn [dispatcher.and_then dispatcher.with_bd dispatcher.bd dispatcher.mark
       dispatcher.perTube].
  rewrite Hslots. cbn [dispatcher.for_each]. unfold dispatcher.bind at 1.
  rewrite runBroker_waits by exact Hopen.
  cbn [dispatcher.and_then].
  eexists _, _. split; [reflexivity|]. cbn. rewrite Hopen. auto.
Qed.

(** With no worker per tube, [RunTubes] returns at once, also on a
    dispatcher that is not shut down: the tubes are marked as watched and no
    worker is started for them. *)
Theorem RunTubes_without_workers tubes w :
  dispatcher.perTube (dispatcher.bd w) <= 0 ->
  exists w',
    dispatcher.RunTubes tubes w = dispatcher.Done tt w'
    /\ dispatcher.frames w' = dispatcher.frames w
    /\ dispatcher.wg (dispatcher.bd w') = dispatcher.wg (dispatcher.bd w)
    /\ dispatcher.ret (dispatcher.bd w') = dispatcher.ret (dispatcher.bd w)
    /\ Forall (fun tube => dispatcher.watched (dispatcher.bd w') tube = true) tubes.
Proof.
  intros Hp. unfold dispatcher.RunTubes.
  enough (Hgen : exists w',
    dispatcher.for_each tubes dispatcher.RunTube w = dispatcher.Done tt w'
    /\ dispatcher.frames w' = dispatcher.frames w
    /\ dispatcher.wg (dispatcher.bd w') = dispatcher.wg (dispatcher.bd w)
    /\ dispatcher.ret (dispatcher.bd w') = dispatcher.ret (dispatcher.bd w)
    /\ Forall (fun tube => dispatcher.watched (dispatcher.bd w') tube = true) tubes
    /\ (forall t, dispatcher.watched (dispatcher.bd w) t = true ->
                  dispatcher.watched (dispatcher.bd w') t = true)).
  { destruct Hgen as (w' & H1 & H2 & H3 & H4 & H5 & _). eauto 10. }
  revert w Hp. induction tubes as [|tube tubes IH]; intros w Hp.
  - exists w. cbn. auto 10.
  - assert (Hrun : dispatcher.RunTube tube w
                   = dispatcher.Done tt (dispatcher.with_bd (dispatcher.mark tube) w)).
    { unfold dispatcher.RunTube, dispatcher.bind. cbn.
      unfold dispatcher.slots. replace (Z.to_nat _) with 0%nat by lia. reflexivity. }
    cbn [dispatcher.for_each]. unfold dispatcher.bind. rewrite Hrun.
    cbn [dispatcher.and_then].
    destruct (IH (dispatcher.with_bd (dispatcher.mark tube) w) Hp)
      as (w' & Hfor & Hfr & Hwg & Hret & Hall & Hmono).
    exists w'. split; [exact Hfor|]. cbn in Hfr, Hwg, Hret.
    repeat split; try assumption.
    + constructor; [|exact Hall]. apply Hmono.
      unfold dispatcher.watched. cbn. now rewrite lookup_insert_eq.
    + intros t Ht. apply Hmono.
      now apply (watched_insert _ tube t (dispatcher.tubeSet (dispatcher.bd w))).
Qed.

Lemma discover_closing tubes w :
  (forall i, dispatcher.sending w i = false) ->
  exists w',
    dispatcher.run_closing
      (dispatcher.for_each tubes
         (fun tube w' =>
            if dispatcher.watched (dispatcher.bd w') tube then dispatcher.Done tt w'
            else dispatcher.RunTube tube w') w)
    = dispatcher.Done tt w'
    /\ Forall (fun tube => dispatcher.watched (dispatcher.bd w') tube = true) tubes
    /\ (forall t, dispatcher.watched (dispatcher.bd w) t = true ->
                  dispatcher.watched (dispatcher.bd w') t = true)
    /\ dispatcher.ListTubes w' = dispatcher.ListTubes w
    /\ dispatcher.sending w' = dispatcher.sending w
    /\ exists new, dispatcher.frames w' = dispatcher.frames w ++ new.
Proof.
  revert w. induction tubes as [|tube tubes IH]; intros w Hs.
  - exists w. cbn. repeat split; auto. exists []. now rewrite app_nil_r.
  - cbn [dispatcher.for_each]. unfold dispatcher.bind.
    rewrite run_closing_and_then.
    destruct (dispatcher.watched (dispatcher.bd w) tube) eqn:Hw.
    + cbn [dispatcher.run_closing].
      destruct (IH w Hs) as (w' & Hrun & Hall & Hmono & Hlt & Hsd & Hnew).
      exists w'. split; [exact Hrun|]. repeat split; auto.
    + destruct (RunTube_keeps tube w Hs)
        as (w1 & -> & Hfr1 & _ & Hts1 & _ & _ & Hlt1 & Hsd1).
      destruct (IH w1) as (w' & Hrun & Hall & Hmono & Hlt & Hsd & new & Hnew).
      { intros i. rewrite Hsd1. apply Hs. }
      exists w'. split; [exact Hrun|]. split; [|split; [|split; [|split]]].
      * constructor; [|exact Hall]. apply Hmono.
        unfold dispatcher.watched. now rewrite Hts1, lookup_insert_eq.
      * intros t Ht. apply Hmono. now apply (watched_insert _ tube t _ Hts1).
      * congruence.
      * congruence.
      * eexists. rewrite Hnew, Hfr1, <- app_assoc. reflexivity.
Qed.

(** A discovery pass over a listing that succeeded, let run to its end
    with pumps that are not caught in their send when their pacing channel
    is closed, leaves every listed tube marked and the workers that were
    there untouched, so that a second pass over the same listing starts
    nothing. *)
Theorem watchNewTubes_settles tubes w :
  dispatcher.ListTubes w = (tubes, None) ->
  (forall i, dispatcher.sending w i = false) ->
  exists w',
    dispatcher.run_closing (dispatcher.watchNewTubes w) = dispatcher.Done None w'
    /\ Forall (fun tube => dispatcher.watched (dispatcher.bd w') tube = true) tubes
    /\ (exists new, dispatcher.frames w' = dispatcher.frames w ++ new)
    /\ dispatcher.watchNewTubes w' = dispatcher.Done None w'.
Proof.
  intros Hlist Hs.
  destruct (discover_closing tubes w Hs) as (w' & Hrun & Hall & _ & Hlt & _ & Hnew).
  exists w'. split; [|split; [exact Hall|split; [exact Hnew|]]].
  - unfold dispatcher.watchNewTubes. rewrite Hlist. unfold dispatcher.bind.
    rewrite run_closing_and_then, Hrun. reflexivity.
  - apply (watchNewTubes_all_watched tubes); [congruence | exact Hall].
Qed.

Lemma RunTubes_starts_all_witness :
  exists w',
    dispatcher.run_closing (dispatcher.RunTubes ["one"; "two"; "one"] (example.fresh 2))
    = dispatcher.Done tt w'
    /\ dispatcher.slot <$> dispatcher.frames w' = [0; 1; 0; 1; 0; 1]
    /\ dispatcher.wg (dispatcher.bd w') = 6.
Proof.
  destruct (RunTubes_starts_all ["one"; "two"; "one"] (example.fresh 2)
              (fun _ => eq_refl))
    as (w' & Hrun & Hfr & Hwg & _).
  exists w'. split; [exact Hrun|]. rewrite Hfr, Hwg. split; reflexivity.
Defined.

Lemma watchNewTubes_settles_witness :
  exists w',
    dispatcher.run_closing (dispatcher.watchNewTubes (example.fresh 2))
    = dispatcher.Done None w'
    /\ dispatcher.watched (dispatcher.bd w') "default" = true
    /\ dispatcher.watchNewTubes w' = dispatcher.Done None w'.
Proof.
  destruct (watchNewTubes_settles ["default"] (example.fresh 2) eq_refl
              (fun _ => eq_refl))
    as (w' & Hrun & Hall & _ & Hagain).
  exists w'. split; [exact Hrun|]. split; [|exact Hagain].
  now apply Forall_cons in Hall as [Hall _].
Defined.

Lemma RunTubes_waits_in_first_slot_witness :
  exists w1 k,
    dispatcher.RunTubes ["one"; "two"] (example.fresh 2) = dispatcher.AwaitRet w1 k
    /\ length (dispatcher.frames w1) = 1%nat
    /\ dispatcher.watched (dispatcher.bd w1) "one" = true
    /\ dispatcher.watched (dispatcher.bd w1) "two" = false.
Proof.
  destruct (RunTubes_waits_in_first_slot "one" ["two"] (example.fresh 2) eq_refl
              ltac:(vm_compute; discriminate))
    as (w1 & k & Hrun & Hfr & _ & Hts & _).
  exists w1, k. split; [exact Hrun|]. unfold dispatcher.watched.
  rewrite Hfr, Hts. repeat split.
Defined.

Lemma RunTubes_without_workers_witness :
  exists w',
    dispatcher.RunTubes ["one"; "two"] (example.fresh 0) = dispatcher.Done tt w'
    /\ dispatcher.frames w' = []
    /\ dispatcher.watched (dispatcher.bd w') "two" = true.
Proof.
  destruct (RunTubes_without_workers ["one"; "two"] (example.fresh 0)
              ltac:(vm_compute; discriminate))
    as (w' & Hrun & Hfr & _ & _ & Hall).
  exists w'. split; [exact Hrun|]. split; [exact Hfr|].
  apply Forall_cons in Hall as [_ Hall]. now apply Forall_cons in Hall as [Hall _].
Defined.

(** ** The timed-out flag *)

Section Flag.

Context {Q : Type} `{!bs.Conn Q}.

Implicit Types (w : @World Q) (job : bs.Job) (b : Broker) (c : cmd.Cmd).
Implicit Types (result : JobResult).

Lemma stdoutReader_flag c sel armed result w d w' :
  stdoutReader c sel armed result w = Returns d w' ->
  match d with
  | BreakLoop r armed' =>
      (armed' = armed /\ events w' = events w /\ TimedOut r = TimedOut result)
      \/ (armed = true /\ armed' = false
          /\ events w' = events w ++ [EvTerminate] /\ TimedOut r = true)
  | ReturnEarly r _ =>
      armed = true
      /\ events w' = events w ++ [EvTerminate] /\ TimedOut r = TimedOut result
  end.
Proof.
  revert armed result w.
  induction sel as [|[t|t data|t] sel IH]; intros armed result w Hrun; cbn in Hrun.
  - discriminate.
  - destruct armed; [|discriminate].
    unfold bind, cmd_Terminate, act, pure in Hrun. cbn in Hrun.
    destruct (cmd.Terminate_err c) as [e|].
    + injection Hrun as <- <-. auto.
    + apply IH in Hrun. destruct d as [r e|r armed'].
      * now destruct Hrun as [? _].
      * right. destruct Hrun as [(-> & Hev & Hto)|(? & _)]; [|discriminate].
        cbn in Hev, Hto. auto.
  - unfold bind, logf in Hrun. cbn in Hrun. apply IH in Hrun.
    destruct d as [r e|r armed']; exact Hrun.
  - injection Hrun as <- <-. left. auto.
Qed.

Lemma waitLoop_flag c sel armed result err w r e w' :
  waitLoop c sel armed result err w = Returns (r, e) w' ->
  (events w' = events w ++ [EvTimerStop] /\ TimedOut r = TimedOut result)
  \/ (armed = true
      /\ events w' = events w ++ [EvTerminate; EvTimerStop] /\ TimedOut r = true).
Proof.
  revert armed result w.
  induction sel as [|[t wr|t] sel IH]; intros armed result w Hrun; cbn in Hrun.
  - discriminate.
  - unfold bind, act, pure in Hrun. cbn in Hrun. injection Hrun as <- _ <-.
    left. auto.
  - destruct armed; [|discriminate].
    unfold bind, cmd_Terminate, act, pure in Hrun. cbn in Hrun.
    apply IH in Hrun. right.
    destruct Hrun as [[Hev Hto]|[? _]]; [|discriminate].
    cbn in Hev, Hto. rewrite Hev, <- app_assoc. auto.
Qed.

(** Without any assumption on the timing: the result that [executeJob]
    returns is flagged as timed out exactly when [Terminate] was called and
    no error is returned with the result. *)
Theorem executeJob_TimedOut_iff_terminated b job cwd w r err w' :
  executeJob b job cwd w = Returns (r, err) w' ->
  exists es,
    events w' = events w ++ es
    /\ (TimedOut r = true <-> err = None /\ EvTerminate ∈ es).
Proof.
  rewrite executeJob_unfold.
  destruct (bs.TimeLeft job (conn w)) as [[ttr e] q]. cbn zeta. cbn [events].
  set (c := procs w (spawned w)).
  set (w3 :=
    {| conn := q; ts := ts w; procs := procs w; spawned := S (spawned w);
       events := ((events w ++ [EvTimeLeft (bs.Id job);
                                EvNewTimer (int64_add ttr ttrMargin)])
                  ++ [EvNewCommand cwd (argv b)])
                 ++ [EvStartWithStdin (bs.Body job)];
       logs := logs w |}).
  assert (Hw3 : events w3
                = events w ++ [EvTimeLeft (bs.Id job);
                               EvNewTimer (int64_add ttr ttrMargin);
                               EvNewCommand cwd (argv b);
                               EvStartWithStdin (bs.Body job)]).
  { cbn. rewrite <- !app_assoc. reflexivity. }
  destruct e as [e|].
  { intros Hrun. injection Hrun as <- <- <-. eexists. split; [reflexivity|].
    cbn. split; [discriminate | intros [? _]; discriminate]. }
  destruct (cmd.NewCommand_err c) as [e|].
  { intros Hrun. injection Hrun as <- <- <-. eexists.
    split; [cbn; rewrite <- app_assoc; reflexivity|].
    cbn. split; [discriminate | intros [? _]; discriminate]. }
  destruct (cmd.StartWithStdin_err c) as [e|].
  { intros Hrun. injection Hrun as <- <- <-. eexists.
    split; [cbn; rewrite <- !app_assoc; reflexivity|].
    cbn. split; [discriminate | intros [? _]; discriminate]. }
  destruct (stdoutReader c (cmd.drain c) true (attempted job) w3)
    as [d w4| |] eqn:Hdrain; try discriminate.
  pose proof (stdoutReader_output _ _ _ _ _ _ _ Hdrain) as Hout.
  apply stdoutReader_flag in Hdrain.
  destruct d as [r0 e|r0 armed].
  - intros Hrun. injection Hrun as -> -> ->.
    destruct Hdrain as (_ & Hev & Hto). destruct Hout as [_ Hne].
    eexists. split; [rewrite Hev, Hw3, <- app_assoc; reflexivity|].
    rewrite Hto. cbn. split; [discriminate | intros [-> _]; now destruct Hne].
  - intros Hrun. pose proof (waitLoop_status _ _ _ _ _ _ _ _ Hrun) as (-> & _).
    apply waitLoop_flag in Hrun.
    destruct Hdrain as [(-> & Hev4 & Hto4)|(_ & -> & Hev4 & Hto4)];
      (destruct Hrun as [[Hev5 Hto5]|(Harmed & Hev5 & Hto5)]; [|try discriminate]);
      eexists; (split; [rewrite Hev5, Hev4, Hw3, <- ?app_assoc; reflexivity|]);
      rewrite Hto5, ?Hto4; cbn.
    + split; [discriminate|]. intros [_ Hin].
      repeat (apply elem_of_cons in Hin as [Hin|Hin]; [discriminate|]).
      now apply elem_of_nil in Hin.
    + split; [|reflexivity]. intros _. split; [reflexivity|].
      do 4 (apply elem_of_cons; right). apply elem_of_cons. now left.
    + split; [|reflexivity]. intros _. split; [reflexivity|].
      do 4 (apply elem_of_cons; right). apply elem_of_cons. now left.
Qed.

End Flag.

Lemma executeJob_TimedOut_iff_terminated_witness :
  exists r w',
    executeJob (example.worker None) example.job7 "/var/www/html/acme/worker"
      (example.world (example.server 0 0) []
         (example.chatty (Some (errors_New "os: process already finished"))))
    = Returns (r, Some (errors_New "os: process already finished")) w'
    /\ TimedOut r = false
    /\ EvTerminate ∈ events w'.
Proof.
  eexists _, _.
  match goal with |- ?A /\ _ => assert (Hrun : A) by (vm_compute; reflexivity) end.
  split; [exact Hrun|].
  destruct (executeJob_TimedOut_iff_terminated _ _ _ _ _ _ _ Hrun) as (es & _ & _).
  split; [reflexivity|].
  do 4 (apply elem_of_cons; right). apply elem_of_cons. now left.
Defined.

(** The discovery loop goes on after a listing that failed: let run to its
    end over any sequence of listings, with pumps that are not caught in
    their send when their pacing channel is closed, it leaves every tube of
    every listing that succeeded marked as watched, and the workers that
    were there untouched. *)
Theorem discover_survives_errors listings w :
  (forall i, dispatcher.sending w i = false) ->
  exists w',
    dispatcher.run_closing (dispatcher.discover listings w) = dispatcher.Done tt w'
    /\ (forall tubes,
          (tubes, None) ∈ listings ->
          Forall (fun tube => dispatcher.watched (dispatcher.bd w') tube = true) tubes)
    /\ exists new, dispatcher.frames w' = dispatcher.frames w ++ new.
Proof.
  intros Hs. unfold dispatcher.discover.
  enough (Hgen : exists w',
    dispatcher.run_closing
      (dispatcher.for_each listings
         (fun answer w0 =>
            dispatcher.and_then
              (dispatcher.watchNewTubes (dispatcher.with_ListTubes answer w0))
              (fun _ w1 => dispatcher.Done tt w1)) w)
    = dispatcher.Done tt w'
    /\ (forall tubes,
          (tubes, None) ∈ listings ->
          Forall (fun tube => dispatcher.watched (dispatcher.bd w') tube = true) tubes)
    /\ (exists new, dispatcher.frames w' = dispatcher.frames w ++ new)
    /\ (forall t, dispatcher.watched (dispatcher.bd w) t = true ->
                  dispatcher.watched (dispatcher.bd w') t = true)).
  { destruct Hgen as (w' & H1 & H2 & H3 & _). eauto. }
  revert w Hs. induction listings as [|[tubes err] listings IH]; intros w Hs.
  - exists w. cbn. split; [reflexivity|]. split; [|split; [|auto]].
    + intros tubes Hin. now apply elem_of_nil in Hin.
    + exists []. now rewrite app_nil_r.
  - cbn [dispatcher.for_each]. unfold dispatcher.bind.
    rewrite !run_closing_and_then.
    destruct err as [e|].
    + unfold dispatcher.watchNewTubes at 1.
      cbn [dispatcher.ListTubes dispatcher.with_ListTubes dispatcher.run_closing].
      destruct (IH (dispatcher.with_ListTubes (tubes, Some e) w) Hs)
        as (w' & Hrun & Hall & Hnew & Hmono).
      exists w'. split; [exact Hrun|]. split; [|split; [exact Hnew | exact Hmono]].
      intros tubes' Hin. apply elem_of_cons in Hin as [Heq|Hin]; [discriminate|].
      now apply Hall.
    + unfold dispatcher.watchNewTubes at 1.
      cbn [dispatcher.ListTubes dispatcher.with_ListTubes].
      unfold dispatcher.bind. rewrite !run_closing_and_then.
      destruct (discover_closing tubes (dispatcher.with_ListTubes (tubes, None) w) Hs)
        as (w1 & -> & Hall1 & Hmono1 & _ & Hsd1 & new1 & Hnew1).
      cbn [dispatcher.pure dispatcher.run_closing].
      destruct (IH w1) as (w' & Hrun & Hall & (new & Hnew) & Hmono).
      { intros i. rewrite Hsd1. apply Hs. }
      exists w'. split; [exact Hrun|]. split; [|split].
      * intros tubes' Hin. apply elem_of_cons in Hin as [Heq|Hin].
        -- injection Heq as ->. eapply Forall_impl; [exact Hall1|].
           intros t Ht. now apply Hmono.
        -- now apply Hall.
      * exists (new1 ++ new). rewrite Hnew, Hnew1. cbn. now rewrite app_assoc.
      * intros t Ht. apply Hmono, Hmono1. exact Ht.
Qed.

(** On a dispatcher that is not shut down, with at least one worker per
    tube, the discovery loop waits in the first slot of the first tube it
    finds unwatched: that one worker is started, and neither the other
    slots, nor the other tubes, nor the later listings are reached before
    [bd.ret] is closed. *)
Theorem discover_waits_in_first_slot tube tubes listings w :
  dispatcher.ret (dispatcher.bd w) = ChanOpen ->
  1 <= dispatcher.perTube (dispatcher.bd w) ->
  dispatcher.watched (dispatcher.bd w) tube = false ->
  exists w1 k,
    dispatcher.discover ((tube :: tubes, None) :: listings) w
    = dispatcher.AwaitRet w1 k
    /\ dispatcher.frames w1
       = dispatcher.frames w
         ++ [dispatcher.waiting (dispatcher.options (dispatcher.bd w)) tube 0]
    /\ dispatcher.tubeSet (dispatcher.bd w1)
       = <[tube := true]> (dispatcher.tubeSet (dispatcher.bd w))
    /\ dispatcher.ret (dispatcher.bd w1) = ChanOpen.
Proof.
  intros Hopen Hp Hnew.
  destruct (RunTube_waits tube
              (dispatcher.with_ListTubes (tube :: tubes, None) w) Hopen Hp)
    as (k & Hrun).
  unfold dispatcher.discover. cbn [dispatcher.for_each].
  unfold dispatcher.bind at 1. unfold dispatcher.watchNewTubes at 1.
  cbn [dispatcher.ListTubes dispatcher.with_ListTubes].
  unfold dispatcher.bind at 1. cbn [dispatcher.for_each].
  unfold dispatcher.bind at 1.
  cbn [dispatcher.bd dispatcher.with_ListTubes]. rewrite Hnew.
  change {| dispatcher.bd := dispatcher.bd w; dispatcher.frames := dispatcher.frames w;
            dispatcher.ListTubes := (tube :: tubes, None);
            dispatcher.sending := dispatcher.sending w |}
    with (dispatcher.with_ListTubes (tube :: tubes, None) w).
  rewrite Hrun. cbn [dispatcher.and_then].
  eexists _, _. split; [reflexivity|]. cbn. rewrite Hopen. auto.
Qed.

Lemma discover_waits_in_first_slot_witness :
  exists w1 k,
    dispatcher.discover [(["default"; "mail"], None); (["default"; "mail"], None)]
      (example.fresh 2)
    = dispatcher.AwaitRet w1 k
    /\ length (dispatcher.frames w1) = 1%nat
    /\ dispatcher.watched (dispatcher.bd w1) "mail" = false.
Proof.
  destruct (discover_waits_in_first_slot "default" ["mail"]
              [(["default"; "mail"], None)] (example.fresh 2) eq_refl
              ltac:(vm_compute; discriminate) eq_refl)
    as (w1 & k & Hrun & Hfr & Hts & _).
  exists w1, k. split; [exact Hrun|]. unfold dispatcher.watched.
  rewrite Hfr, Hts. repeat split.
Defined.

Lemma discover_survives_errors_witness :
  exists w',
    dispatcher.run_closing
      (dispatcher.discover
         [(["default"], None); ([], Some example.eof); (["default"; "mail"], None)]
         (example.fresh 1))
    = dispatcher.Done tt w'
    /\ dispatcher.watched (dispatcher.bd w') "mail" = true.
Proof.
  destruct (discover_survives_errors
              [(["default"], None); ([], Some example.eof); (["default"; "mail"], None)]
              (example.fresh 1) (fun _ => eq_refl))
    as (w' & Hrun & Hall & _).
  exists w'. split; [exact Hrun|].
  assert (Hin : (["default"; "mail"], None)
                ∈ [(["default"], None); ([], Some example.eof);
                   (["default"; "mail"], @None error)]).
  { do 2 (apply elem_of_cons; right). apply elem_of_cons. now left. }
  specialize (Hall _ Hin).
  apply Forall_cons in Hall as [_ Hall]. now apply Forall_cons in Hall as [Hall _].
Defined.

(** When the pump of the first slot is in its send as its pacing channel is
    closed, [RunTubes] ends there, in the panic of the pump: one worker has
    been started, and the other slots and tubes are never reached. *)
Theorem RunTubes_ends_in_pump_panic tube rest w :
  1 <= dispatcher.perTube (dispatcher.bd w) ->
  dispatcher.sending w (length (dispatcher.frames w)) = true ->
  exists w',
    dispatcher.run_closing (dispatcher.RunTubes (tube :: rest) w)
    = dispatcher.Panic "send on closed channel" w'
    /\ dispatcher.frames w'
       = dispatcher.frames w
         ++ [dispatcher.launched (dispatcher.options (dispatcher.bd w)) tube 0]
    /\ dispatcher.wg (dispatcher.bd w') = dispatcher.wg (dispatcher.bd w) + 1.
Proof.
  intros Hp Hs.
  destruct (RunTube_closing_panics tube w Hp Hs) as (w' & Hrun & Hfr & Hwg).
  exists w'. split; [|split; [exact Hfr|exact Hwg]].
  unfold dispatcher.RunTubes. cbn [dispatcher.for_each]. unfold dispatcher.bind.
  rewrite run_closing_and_then, Hrun. reflexivity.
Qed.

Lemma RunTubes_ends_in_pump_panic_witness :
  exists w',
    dispatcher.run_closing (dispatcher.RunTubes ["one"; "two"] (example.busy 2))
    = dispatcher.Panic "send on closed channel" w'
    /\ length (dispatcher.frames w') = 1%nat
    /\ dispatcher.wg (dispatcher.bd w') = 1.
Proof.
  destruct (RunTubes_ends_in_pump_panic "one" ["two"] (example.busy 2)
              ltac:(vm_compute; discriminate) eq_refl)
    as (w' & Hrun & Hfr & Hwg).
  exists w'. split; [exact Hrun|]. rewrite Hfr, Hwg. split; reflexivity.
Defined.
